(** * Request-scoped authentication and uniqueness-checked user mutation

    A shallow embedding of [src/Guards/AppGuard.ts] and
    [src/modules/user/service/user.service.ts], and the properties of the
    design document checked against it.

    Conventions of the embedding:
    - a JavaScript string is the list of its UTF-16 code units;
    - a JavaScript object used as a bag of fields (an entity, a partial DTO,
      a decoded token payload) is a finite map from field names to strings,
      an absent key standing for [undefined];
    - an [async] method is a computation over the rows of the [users] table
      that either returns a value or throws, in both cases leaving a table
      behind;
    - the collaborators that are not part of the repository's own code
      (bcrypt, the JWT library, the database, other requests running
      concurrently) are gathered in environment records. *)

From stdpp Require Import base option strings list gmap fin_maps.

(** ** JavaScript strings *)

Abbreviation jstring := (list N).

(** The code units of an ASCII literal. *)
Fixpoint js (s : string) : jstring :=
  match s with
  | EmptyString => []
  | String a s' => Ascii.N_of_ascii a :: js s'
  end.

(** A field bag: [o !! k = None] reads as [o.k === undefined]. *)
Abbreviation obj := (gmap string jstring).

Module JS.

(** ECMAScript [WhiteSpace] and [LineTerminator] code points, the ones
    [String.prototype.trim] strips. *)
Definition isWhiteSpace (c : N) : bool :=
  (bool_decide (c ∈ [9; 10; 11; 12; 13; 32; 160; 5760; 8232; 8233; 8239;
                     8287; 12288; 65279])
   || ((8192 <=? c) && (c <=? 8202)))%N.

Fixpoint trimStart (s : jstring) : jstring :=
  match s with
  | [] => []
  | c :: s' => if isWhiteSpace c then trimStart s' else s
  end.

Definition trimEnd (s : jstring) : jstring := reverse (trimStart (reverse s)).

(** [s.trim()] *)
Definition trim (s : jstring) : jstring := trimEnd (trimStart s).

(** [s.split(sep)] for a separator of one code unit: every occurrence
    splits, so consecutive separators yield empty pieces and
    [''.split(' ')] is [['']]. *)
Fixpoint split (sep : N) (s : jstring) : list jstring :=
  match s with
  | [] => [[]]
  | c :: s' =>
      if (c =? sep)%N then [] :: split sep s'
      else match split sep s' with
           | piece :: rest => (c :: piece) :: rest
           | [] => [[c]]
           end
  end.

(** Truthiness of a [string | undefined]: [undefined] and [''] are falsy. *)
Definition truthy (v : option jstring) : bool :=
  match v with
  | Some (_ :: _) => true
  | _ => false
  end.

(** [Object.assign(target, source)]: every own key of [source] is copied
    over [target]; the other keys of [target] stay. *)
Definition assign (target source : obj) : obj := source ∪ target.

End JS.

(** ** Exceptions and computations *)

Inductive ExceptionClass :=
| UnauthorizedException
| NotFoundException
| ConflictException
| ForbiddenException
| QueryFailedError
| JsonWebTokenError
| TokenExpiredError.

(** An exception value: its class and the message given to the constructor
    ([None] when it is built without argument). *)
Record Exception := mkException {
  exn_class : ExceptionClass;
  exn_message : option string
}.

Inductive Result (A : Type) :=
| Ok (a : A)
| Throw (e : Exception).
Arguments Ok {A} a.
Arguments Throw {A} e.

(** A computation over a mutable state [S] (the table, or the request
    object) that returns or throws. A throw keeps the state reached so far:
    nothing rolls back. *)
Definition M (S A : Type) : Type := S → Result A * S.

#[export] Instance M_ret {S} : MRet (M S) := λ A a s, (Ok a, s).
#[export] Instance M_bind {S} : MBind (M S) := λ A B f m s,
  match m s with
  | (Ok a, s') => f a s'
  | (Throw e, s') => (Throw e, s')
  end.

Definition throw {S A} (e : Exception) : M S A := λ s, (Throw e, s).
Definition get {S} : M S S := λ s, (Ok s, s).
Definition put {S} (s : S) : M S () := λ _, (Ok (), s).

(** [try { m } catch { h }] *)
Definition try_catch {S A} (m : M S A) (h : Exception → M S A) : M S A := λ s,
  match m s with
  | (Ok a, s') => (Ok a, s')
  | (Throw e, s') => h e s'
  end.

Definition lift {S A} (r : Result A) : M S A := λ s, (r, s).

(** ** The authentication guard ([src/Guards/AppGuard.ts]) *)

(** The express request as the guard uses it: the header table (express
    lower-cases header names) and the [user] property the guard sets. *)
Record Request := mkRequest {
  req_headers : gmap string jstring;
  req_user : option obj
}.

(** [@nestjs/jwt] and the process environment. [verifyAsync token secret]
    resolves to the decoded payload or rejects: bad signature, expired
    token and malformed payload are all rejections. *)
Record JwtEnv := mkJwtEnv {
  JWT_SECRET : option jstring;
  verifyAsync : jstring → option jstring → Result obj
}.

Module AuthGuard.
Section guard.
Context (jwtService : JwtEnv).

Definition Unauthorized : Exception := mkException UnauthorizedException None.

Definition extractTokenFromHeader (request : Request) : M Request (option jstring) :=
  let str := req_headers request !! "authorization" in
  match str with
  | Some (c :: s) =>
      let parts := JS.split 32 (c :: s) in
      let type := parts !! 0%nat in
      let token := parts !! 1%nat in
      mret (if bool_decide (type = Some (js "Bearer")) then token else None)
  | _ => throw Unauthorized
  end.

(** [console.log] only writes to the server's own output and is left out. *)
Definition canActivate : M Request bool :=
  request ← get;
  token ← extractTokenFromHeader request;
  match token with
  | Some (c :: t) =>
      try_catch
        (payload ← lift (verifyAsync jwtService (c :: t) (JWT_SECRET jwtService));
         put (mkRequest (req_headers request) (Some payload)))
        (λ _, throw Unauthorized);;
      mret true
  | _ => throw Unauthorized
  end.

(** The framework's contract for a guarded route: the guard runs first; the
    handler runs only when the guard returned [true]; a guard returning
    [false] is answered with a Forbidden error; a guard that throws ends the
    request with what it threw. *)
Definition guarded {A} (handler : M Request A) : M Request A :=
  allowed ← canActivate;
  if allowed : bool then handler
  else throw (mkException ForbiddenException None).

End guard.
End AuthGuard.

(** ** The user store *)

(** The collaborators of one request of the user service. *)
Record Env := mkEnv {
  (** what other requests commit to the table while this one is suspended
      at an [await] on the repository; the identity when it runs alone *)
  interleave : list obj → list obj;
  (** [bcrypt.genSalt(rounds)]: the salt drawn for this request *)
  genSalt : N → jstring;
  (** [bcrypt.hash(password, salt)] *)
  hash : jstring → jstring → jstring;
  (** the primary key the database generates for a row inserted in a table *)
  generate_id : list obj → jstring
}.

Definition sequential (env : Env) : Prop := ∀ rows, interleave env rows = rows.

(** [typeorm]'s [Repository<User>] over the rows of the [users] table. *)
Module Repository.

Definition has (k : string) (v : jstring) (row : obj) : bool :=
  bool_decide (row !! k = Some v).

(** Two rows agree on a column when both hold the same value there
    (a missing value never collides). *)
Definition same (k : string) (a b : obj) : bool :=
  match a !! k with
  | Some v => has k v b
  | None => false
  end.

(** Modelled from the spec: the entity declaration is not among the sources;
    the [users] table has unique constraints on [email] and [username].
    [clash entity row]: [row] is another row (another primary key) that
    already holds the email or the username of [entity]. *)
Definition clash (entity row : obj) : bool :=
  negb (same "id" entity row) && (same "email" entity row || same "username" entity row).

Definition UniqueViolation : Exception :=
  mkException QueryFailedError
    (Some "duplicate key value violates unique constraint").

Section repository.
Context (env : Env).

(** Every call is a round trip to the database: it sees what other requests
    have committed in the meantime. *)
Definition query {A} (q : list obj → Result A * list obj) : M (list obj) A :=
  λ rows, q (interleave env rows).

(** [findOne({ where: { k: v } })] *)
Definition findOne (k : string) (v : jstring) : M (list obj) (option obj) :=
  query (λ rows, (Ok (find (has k v) rows), rows)).

(** [find()] *)
Definition find_all : M (list obj) (list obj) :=
  query (λ rows, (Ok rows, rows)).

(** [save(entity)]: an entity whose primary key is in the table replaces
    that row, any other entity is inserted, the database generating the
    key when the entity has none; the statement fails when it would break a
    unique constraint. *)
Definition save (entity : obj) : M (list obj) obj :=
  query (λ rows,
    if existsb (clash entity) rows then (Throw UniqueViolation, rows)
    else match entity !! "id" with
         | Some i =>
             if existsb (has "id" i) rows
             then (Ok entity, (λ row, if has "id" i row then entity else row) <$> rows)
             else (Ok entity, rows ++ [entity])
         | None =>
             let saved := <["id" := generate_id env rows]> entity in
             (Ok saved, rows ++ [saved])
         end).

(** [remove(entity)]: deletes the row of the entity's primary key. *)
Definition remove (entity : obj) : M (list obj) obj :=
  query (λ rows,
    match entity !! "id" with
    | Some i => (Ok (delete "id" entity), filter (λ row, ¬ has "id" i row) rows)
    | None => (Ok entity, rows)
    end).

End repository.
End Repository.

(** ** Mapping and response helpers *)

(** Modelled from the spec: [CreateUserDto] is not among the sources. The
    service reads [username], [email] and [password] from it; [profile]
    holds the remaining fields of the request. *)
Record CreateUserDto := mkCreateUserDto {
  username : jstring;
  email : jstring;
  password : jstring;
  profile : obj
}.

(** The own properties of the DTO object, as the spread [{ ...dto }] sees
    them. *)
Definition properties (dto : CreateUserDto) : obj :=
  <["username" := username dto]>
    (<["email" := email dto]> (<["password" := password dto]> (profile dto))).

Module UserMapper.

(** Modelled from the spec: [UserMapper] is not among the sources. The new
    record carries the fields of the (normalized, hashed) create request. *)
Definition toEntity (dto : obj) : obj := dto.

(** Modelled from the spec: [UserMapper] is not among the sources. The
    response is the record minus the password field. *)
Definition toResponseDto (user : obj) : obj := delete "password" user.

Definition toResponseDtoList (users : list obj) : list obj := toResponseDto <$> users.

End UserMapper.

(** Modelled from the spec: [ResponseUtil] is not among the sources. The
    envelope of a successful answer keeps the payload and the
    human-readable message the service passes. *)
Record IResponse (A : Type) := mkResponse {
  data : A;
  message : string
}.
Arguments mkResponse {A} data message.
Arguments data {A} _.
Arguments message {A} _.

Module ResponseUtil.
Definition success {A} (data : A) (message : string) : IResponse A :=
  mkResponse data message.
End ResponseUtil.

(** ** The user service ([src/modules/user/service/user.service.ts]) *)

Module UserService.

Definition SALT_ROUNDS : N := 10.

Definition NotFound (message : string) : Exception :=
  mkException NotFoundException (Some message).
Definition Conflict (message : string) : Exception :=
  mkException ConflictException (Some message).

Definition email_taken : string := "Email đã được sử dụng".
Definition username_taken : string := "Tên đăng nhập đã được sử dụng".
Definition user_not_found : string := "Không tìm thấy người dùng".

Section service.
Context (env : Env).

(** The debug log lines are left out: they change neither the table nor
    the answer. *)

Definition findByEmail (email : jstring) : M (list obj) (option obj) :=
  Repository.findOne env "email" email.

Definition findByUsername (username : jstring) : M (list obj) (option obj) :=
  Repository.findOne env "username" username.

Definition findUserById (id : jstring) : M (list obj) obj :=
  user ← Repository.findOne env "id" id;
  match user with
  | None => throw (NotFound user_not_found)
  | Some user => mret user
  end.

(** [Promise.all] starts both lookups and waits for both results; a lookup
    never rejects, so the order in which they are answered does not show. *)
Definition validateUniqueConstraints (createUserDto : CreateUserDto) : M (list obj) () :=
  existingEmail ← findByEmail (email createUserDto);
  existingUsername ← findByUsername (username createUserDto);
  if existingEmail is Some _ then throw (Conflict email_taken)
  else if existingUsername is Some _ then throw (Conflict username_taken)
  else mret ().

Definition validateUpdateConstraints (user updateData : obj) : M (list obj) () :=
  match updateData !! "email" with
  | Some (c :: e) =>
      if bool_decide (updateData !! "email" ≠ user !! "email") then
        existingEmail ← findByEmail (c :: e);
        if existingEmail is Some _ then throw (Conflict email_taken) else mret ()
      else mret ()
  | _ => mret ()
  end;;
  match updateData !! "username" with
  | Some (c :: u) =>
      if bool_decide (updateData !! "username" ≠ user !! "username") then
        existingUsername ← findByUsername (c :: u);
        if existingUsername is Some _ then throw (Conflict username_taken) else mret ()
      else mret ()
  | _ => mret ()
  end.

Definition hashPassword (password : jstring) : M (list obj) jstring :=
  let salt := genSalt env SALT_ROUNDS in
  let hashedPassword := hash env password salt in
  mret hashedPassword.

Definition updateUserData (user updateData : obj) : M (list obj) obj :=
  updateData ←
    match updateData !! "password" with
    | Some (c :: p) =>
        hashed ← hashPassword (c :: p);
        mret (<["password" := hashed]> updateData)
    | _ => mret updateData
    end;
  let user := JS.assign user updateData in
  Repository.save env user.

(** [getMyInfo] reads the request from ambient state; here it is a
    parameter ([None] when no request object is there). *)
Definition getMyInfo (request : option Request) : M (list obj) (IResponse obj) :=
  let userId : option jstring :=
    request ← request; user ← req_user request; (user : obj) !! "id" in
  match userId with
  | Some (c :: i) =>
      user ← findUserById (c :: i);
      mret (ResponseUtil.success (UserMapper.toResponseDto user)
              "Lấy thông tin cá nhân thành công")
  | _ => throw (NotFound "Không tìm thấy thông tin người dùng")
  end.

Definition create (createUserDto : CreateUserDto) : M (list obj) (IResponse obj) :=
  let createUserDto :=
    mkCreateUserDto (JS.trim (username createUserDto)) (email createUserDto)
      (JS.trim (password createUserDto)) (profile createUserDto) in
  validateUniqueConstraints createUserDto;;
  hashedPassword ← hashPassword (password createUserDto);
  let user :=
    UserMapper.toEntity (<["password" := hashedPassword]> (properties createUserDto)) in
  savedUser ← Repository.save env user;
  mret (ResponseUtil.success (UserMapper.toResponseDto savedUser)
          "Tạo người dùng thành công").

Definition findAll : M (list obj) (IResponse (list obj)) :=
  users ← Repository.find_all env;
  mret (ResponseUtil.success (UserMapper.toResponseDtoList users)
          "Lấy danh sách người dùng thành công").

Definition findOne (id : jstring) : M (list obj) (IResponse obj) :=
  user ← findUserById id;
  mret (ResponseUtil.success (UserMapper.toResponseDto user)
          "Lấy thông tin người dùng thành công").

Definition update (id : jstring) (updateData : obj) : M (list obj) (IResponse obj) :=
  user ← findUserById id;
  validateUpdateConstraints user updateData;;
  updatedUser ← updateUserData user updateData;
  mret (ResponseUtil.success (UserMapper.toResponseDto updatedUser)
          "Cập nhật thông tin người dùng thành công").

(** The acknowledgment [{ deleted: true }]. *)
Record Deleted := mkDeleted { deleted : bool }.

Definition remove (id : jstring) : M (list obj) (IResponse Deleted) :=
  user ← findUserById id;
  Repository.remove env user;;
  mret (ResponseUtil.success (mkDeleted true) "Xóa người dùng thành công").

End service.
End UserService.

(** ** Sample collaborators and data, used to exercise the statements *)

Module Demo.

(** A stand-in for bcrypt: the digest wraps the salt and the password
    between two [$] signs. *)
Definition env : Env :=
  mkEnv (λ rows, rows)
        (λ _, js "2b$10$abcdefghijklmnopqrstuv")
        (λ password salt, js "$" ++ salt ++ password ++ js "$")
        (λ rows, js "id-" ++ replicate (length rows) 49%N).

(** The same collaborators, next to another client that registers [first]
    and then [second] while this request is suspended: one registration
    is committed at each round trip of this request. *)
Definition racing (first second : obj) : Env :=
  mkEnv (λ rows,
           if existsb (Repository.same "id" first) rows
           then if existsb (Repository.same "id" second) rows then rows
                else rows ++ [second]
           else rows ++ [first])
        (genSalt env) (hash env) (generate_id env).

Definition user (id email username password : string) : obj :=
  <["id" := js id]> (<["email" := js email]>
    (<["username" := js username]> {["password" := js password]})).

Definition alice : obj := user "1" "a@x.com" "alice" "$2b$10$hash-of-alice$".
Definition bob : obj := user "2" "b@x.com" "bob" "$2b$10$hash-of-bob$".
Definition carol : obj := user "7" "c@x.com" "carol" "$2b$10$hash-of-carol$".
Definition rival : obj := user "8" "a@x.com" "al" "$2b$10$hash-of-al$".

(** A JWT library that accepts the single token [good] under the
    configured secret. *)
Definition jwt : JwtEnv :=
  mkJwtEnv (Some (js "s3cret"))
    (λ token secret,
       if bool_decide (token = js "good" ∧ secret = Some (js "s3cret"))
       then Ok {["id" := js "1"]}
       else Throw (mkException JsonWebTokenError (Some "invalid signature"))).

Definition request (authorization : string) : Request :=
  mkRequest {["authorization" := js authorization]} None.

End Demo.

(** ** Specification vocabulary *)

(** The header shape the design document asks for: [Bearer <token>], the
    token a non-empty run of characters without a space. *)
Definition bearer_form (header token : jstring) : Prop :=
  header = js "Bearer " ++ token ∧ token ≠ [] ∧ 32%N ∉ token.

(** The requests the guard turns away, read off the header: no header or an
    empty one; a first space-separated field other than [Bearer]; no second
    field or an empty one; a second field the JWT library rejects. *)
Inductive rejected (jwt : JwtEnv) (request : Request) : Prop :=
| rejected_no_header :
    JS.truthy (req_headers request !! "authorization") = false →
    rejected jwt request
| rejected_scheme header :
    req_headers request !! "authorization" = Some header →
    JS.split 32 header !! 0%nat ≠ Some (js "Bearer") →
    rejected jwt request
| rejected_no_token header :
    req_headers request !! "authorization" = Some header →
    JS.truthy (JS.split 32 header !! 1%nat) = false →
    rejected jwt request
| rejected_token header token e :
    req_headers request !! "authorization" = Some header →
    JS.split 32 header !! 1%nat = Some token →
    verifyAsync jwt token (JWT_SECRET jwt) = Throw e →
    rejected jwt request.

(** [taken k v rows]: some row of the table holds [v] in column [k]. *)
Definition taken (k : string) (v : jstring) (rows : list obj) : Prop :=
  ∃ row, row ∈ rows ∧ row !! k = Some v.

(** The primary key and the unique constraints of the table hold. *)
Definition consistent (rows : list obj) : Prop :=
  NoDup (omap (.!! "id") rows)
  ∧ NoDup (omap (.!! "email") rows)
  ∧ NoDup (omap (.!! "username") rows).

(** The value an update brings for a unique column, when the service looks
    it up: the field is supplied, is not empty, and is not the user's
    current value. *)
Definition changes (k : string) (user updateData : obj) : option jstring :=
  match updateData !! k with
  | Some (c :: v) =>
      if bool_decide (updateData !! k ≠ user !! k) then Some (c :: v) else None
  | _ => None
  end.

(** What the statements about stored passwords take for granted of bcrypt:
    a digest is never the very string that was hashed, and it neither
    starts nor ends with white space (a bcrypt digest is [$2b$], the cost,
    and 53 characters of a base-64 alphabet). *)
Record bcrypt_like (env : Env) : Prop := {
  hash_not_identity : ∀ password salt, hash env password salt ≠ password;
  hash_no_blank : ∀ password salt,
    JS.trim (hash env password salt) = hash env password salt
}.

(** The create request after the two trimming assignments of [create]. *)
Definition trimmed (dto : CreateUserDto) : CreateUserDto :=
  mkCreateUserDto (JS.trim (username dto)) (email dto)
    (JS.trim (password dto)) (profile dto).

(** The entity [create] hands to the repository: the properties of the
    trimmed request, the password replaced by its digest. *)
Definition new_user (env : Env) (dto : CreateUserDto) : obj :=
  <["password" := hash env (JS.trim (password dto))
                    (genSalt env UserService.SALT_ROUNDS)]>
    (properties (trimmed dto)).

(** The update data after [updateUserData] has replaced a truthy password
    by its digest. *)
Definition hashed_patch (env : Env) (updateData : obj) : obj :=
  match updateData !! "password" with
  | Some (c :: p) =>
      <["password" := hash env (c :: p) (genSalt env UserService.SALT_ROUNDS)]>
        updateData
  | _ => updateData
  end.

(** The identity the guard attaches for a table of headers, when it lets
    the request through: the verified payload of the second space-separated
    field of a non-empty [authorization] header whose first field is
    [Bearer]. *)
Definition presented (jwt : JwtEnv) (headers : gmap string jstring) : option obj :=
  match headers !! "authorization" with
  | Some (c :: s) =>
      if bool_decide (JS.split 32 (c :: s) !! 0%nat = Some (js "Bearer")) then
        match JS.split 32 (c :: s) !! 1%nat with
        | Some (d :: t) =>
            match verifyAsync jwt (d :: t) (JWT_SECRET jwt) with
            | Ok payload => Some payload
            | Throw _ => None
            end
        | _ => None
        end
      else None
  | _ => None
  end.

(** [request?.user?.id] *)
Definition identity_of (request : option Request) : option jstring :=
  request ← request; user ← req_user request; (user : obj) !! "id".

(** The message of [getMyInfo] when the request carries no identity. *)
Definition identity_missing : string := "Không tìm thấy thông tin người dùng".

(** ** Proof tools *)

(** [differ]: closes a goal [a ≠ b] between closed terms by evaluating
    both sides. *)
Ltac differ :=
  let H := fresh in
  intros H;
  match type of H with
  | ?a = ?b =>
      let a' := eval vm_compute in a in
      let b' := eval vm_compute in b in
      change (a' = b') in H
  end;
  discriminate H.

Arguments Repository.findOne : simpl never.
Arguments Repository.save : simpl never.
Arguments Repository.remove : simpl never.

Ltac run := unfold mbind, M_bind, mret, M_ret, throw.

(** ** Strings *)

Lemma split_no_separator sep (s : jstring) :
  sep ∉ s → JS.split sep s = [s].
Proof.
  induction s as [|c s IH]; intros Hs; [done|].
  apply not_elem_of_cons in Hs as [Hc Hs]. cbn.
  destruct (N.eqb_spec c sep) as [->|_]; [done|].
  by rewrite IH.
Qed.

Lemma split_at_separator sep (a b : jstring) :
  sep ∉ a → JS.split sep (a ++ sep :: b) = a :: JS.split sep b.
Proof.
  induction a as [|c a IH]; intros Ha; cbn.
  - by rewrite N.eqb_refl.
  - apply not_elem_of_cons in Ha as [Hc Ha].
    destruct (N.eqb_spec c sep) as [->|_]; [done|].
    by rewrite IH.
Qed.

Lemma split_bearer (token : jstring) :
  32%N ∉ token → JS.split 32 (js "Bearer " ++ token) = [js "Bearer"; token].
Proof.
  intros Htok.
  change (js "Bearer " ++ token) with (js "Bearer" ++ 32%N :: token).
  rewrite split_at_separator, split_no_separator; [done..|].
  by apply (bool_decide_unpack _).
Qed.

(** ** The guard *)

Section guard_facts.
Context (jwt : JwtEnv).

Lemma extractTokenFromHeader_no_header request :
  JS.truthy (req_headers request !! "authorization") = false →
  AuthGuard.extractTokenFromHeader request request
  = (Throw AuthGuard.Unauthorized, request).
Proof.
  unfold AuthGuard.extractTokenFromHeader.
  by destruct (req_headers request !! "authorization") as [[|c s]|].
Qed.

Lemma extractTokenFromHeader_header request header :
  req_headers request !! "authorization" = Some header →
  header ≠ [] →
  AuthGuard.extractTokenFromHeader request request
  = (Ok (if bool_decide (JS.split 32 header !! 0%nat = Some (js "Bearer"))
         then JS.split 32 header !! 1%nat else None), request).
Proof.
  unfold AuthGuard.extractTokenFromHeader. intros -> Hne.
  by destruct header.
Qed.

(** Whatever the request, the guard either lets it through or throws the
    one argument-less [UnauthorizedException], leaving the request as it
    was. *)
Lemma canActivate_outcomes request :
  (∃ payload, AuthGuard.canActivate jwt request
     = (Ok true, mkRequest (req_headers request) (Some payload)))
  ∨ AuthGuard.canActivate jwt request = (Throw AuthGuard.Unauthorized, request).
Proof.
  unfold AuthGuard.canActivate, mbind, M_bind, get; cbn.
  destruct (JS.truthy (req_headers request !! "authorization")) eqn:Hh.
  - destruct (req_headers request !! "authorization") as [[|c s]|] eqn:Hs; try done.
    rewrite (extractTokenFromHeader_header _ _ Hs) by done.
    case_bool_decide; [|by right].
    destruct (JS.split 32 (c :: s) !! 1%nat) as [[|d t]|]; [by right| |by right].
    unfold try_catch, lift, put, throw, mbind, M_bind; cbn.
    destruct (verifyAsync jwt (d :: t) (JWT_SECRET jwt)) as [payload|e]; cbn.
    + left. by exists payload.
    + by right.
  - rewrite extractTokenFromHeader_no_header by done. by right.
Qed.

Lemma canActivate_rejected request :
  rejected jwt request →
  AuthGuard.canActivate jwt request = (Throw AuthGuard.Unauthorized, request).
Proof.
  intros Hrej.
  unfold AuthGuard.canActivate, mbind, M_bind, get; cbn.
  destruct Hrej as [Hh|h Hh Hty|h Hh Hno|h tok e Hh Htok Hv].
  - by rewrite extractTokenFromHeader_no_header.
  - destruct h as [|c s]; [by rewrite extractTokenFromHeader_no_header by (by rewrite Hh)|].
    rewrite (extractTokenFromHeader_header _ _ Hh) by done.
    by rewrite bool_decide_eq_false_2.
  - destruct h as [|c s]; [by rewrite extractTokenFromHeader_no_header by (by rewrite Hh)|].
    rewrite (extractTokenFromHeader_header _ _ Hh) by done.
    case_bool_decide; [|done].
    by destruct (JS.split 32 (c :: s) !! 1%nat) as [[|d t]|].
  - destruct h as [|c s]; [by rewrite extractTokenFromHeader_no_header by (by rewrite Hh)|].
    rewrite (extractTokenFromHeader_header _ _ Hh) by done.
    case_bool_decide; [|done]. rewrite Htok.
    destruct tok as [|d t]; [done|].
    unfold try_catch, lift, put, throw, mbind, M_bind; cbn.
    by rewrite Hv.
Qed.

End guard_facts.

(** C4, as amended: whenever the Authorization header is absent or empty,
    or its first space-separated field is not [Bearer], or its second field
    is missing or empty, or the JWT library rejects that second field (bad
    signature, expired, malformed payload), the guard throws one and the
    same argument-less [UnauthorizedException], the request is left without
    identity and the handler of the guarded route does not run. More
    generally the guard never throws anything else. *)
Theorem guard_rejects jwt request :
  rejected jwt request →
  AuthGuard.canActivate jwt request = (Throw AuthGuard.Unauthorized, request)
  ∧ (∀ A (handler : M Request A),
       AuthGuard.guarded jwt handler request = (Throw AuthGuard.Unauthorized, request))
  ∧ (∀ request' e s,
       AuthGuard.canActivate jwt request' = (Throw e, s) →
       e = AuthGuard.Unauthorized ∧ s = request').
Proof.
  intros Hrej. pose proof (canActivate_rejected jwt request Hrej) as Hcan.
  split_and!; [done| |].
  - intros A handler. unfold AuthGuard.guarded, mbind, M_bind. by rewrite Hcan.
  - intros request' e s Hthrow.
    destruct (canActivate_outcomes jwt request') as [[payload Hok]|Hno];
      split; congruence.
Qed.

Lemma guard_rejects_witness :
  rejected Demo.jwt (Demo.request "Bearer bad")
  ∧ AuthGuard.canActivate Demo.jwt (Demo.request "Bearer bad")
    = (Throw AuthGuard.Unauthorized, Demo.request "Bearer bad").
Proof.
  assert (rejected Demo.jwt (Demo.request "Bearer bad")) as Hrej.
  { apply (rejected_token _ _ (js "Bearer bad") (js "bad")
             (mkException JsonWebTokenError (Some "invalid signature")));
      reflexivity. }
  split; [exact Hrej|].
  exact (proj1 (guard_rejects Demo.jwt (Demo.request "Bearer bad") Hrej)).
Defined.

(** C4, as stated, fails: a header that is not of the form [Bearer <token>]
    because more text follows the token after a second space is let
    through when the text between the two spaces is a valid token, although
    what follows [Bearer] as a whole is no valid token. *)
Lemma guard_accepts_trailing_text :
  (¬ ∃ token, bearer_form (js "Bearer good extra") token)
  ∧ (∃ e, verifyAsync Demo.jwt (js "good extra") (JWT_SECRET Demo.jwt) = Throw e)
  ∧ AuthGuard.canActivate Demo.jwt (Demo.request "Bearer good extra")
    = (Ok true,
       mkRequest (req_headers (Demo.request "Bearer good extra"))
         (Some {["id" := js "1"]})).
Proof.
  split.
  - intros (token & Heq & _ & Hsp). apply Hsp.
    change (js "Bearer good extra") with (js "Bearer " ++ js "good extra") in Heq.
    apply app_inv_head in Heq as <-. by apply (bool_decide_unpack _).
  - split; [by eexists|reflexivity].
Qed.

(** C5: a request whose Authorization header is [Bearer <token>], with a
    token the JWT library verifies under the configured secret, passes the
    guard, which returns [true] and stores the decoded payload in the
    request's [user] property; the handler of the guarded route then runs
    on that request, where the identity can be read. *)
Theorem guard_accepts jwt request token payload :
  req_headers request !! "authorization" = Some (js "Bearer " ++ token) →
  token ≠ [] →
  32%N ∉ token →
  verifyAsync jwt token (JWT_SECRET jwt) = Ok payload →
  let request' := mkRequest (req_headers request) (Some payload) in
  AuthGuard.canActivate jwt request = (Ok true, request')
  ∧ req_user request' = Some payload
  ∧ (∀ A (handler : M Request A),
       AuthGuard.guarded jwt handler request = handler request').
Proof.
  intros Hh Hne Hsp Hv request'.
  assert (AuthGuard.canActivate jwt request = (Ok true, request')) as Hcan.
  { unfold AuthGuard.canActivate, mbind, M_bind, get; cbn.
    rewrite (extractTokenFromHeader_header _ _ Hh) by done.
    rewrite split_bearer by done; cbn.
    rewrite bool_decide_eq_true_2 by done.
    destruct token as [|c t]; [done|].
    unfold try_catch, lift, put, mbind, M_bind; cbn.
    by rewrite Hv. }
  split_and!; [done..|].
  intros A handler. unfold AuthGuard.guarded, mbind, M_bind. by rewrite Hcan.
Qed.

Lemma guard_accepts_witness :
  AuthGuard.canActivate Demo.jwt (Demo.request "Bearer good")
  = (Ok true, mkRequest (req_headers (Demo.request "Bearer good"))
                (Some {["id" := js "1"]})).
Proof.
  refine (proj1 (guard_accepts Demo.jwt (Demo.request "Bearer good")
                   (js "good") {["id" := js "1"]} _ _ _ _)).
  - reflexivity.
  - done.
  - by apply (bool_decide_unpack _).
  - reflexivity.
Defined.

(** ** The table *)

Lemma find_has_None k v (rows : list obj) :
  find (Repository.has k v) rows = None ↔ ¬ taken k v rows.
Proof.
  unfold taken, Repository.has. split.
  - intros Hnone (row & Hin & Hrow).
    apply list_elem_of_In in Hin.
    pose proof (find_none _ _ Hnone _ Hin) as Hf. cbn in Hf.
    by rewrite bool_decide_eq_true_2 in Hf.
  - intros Hfree. destruct (find _ rows) as [row|] eqn:Hfind; [|done].
    apply find_some in Hfind as [Hin Hrow]. destruct Hfree.
    exists row. split; [by apply list_elem_of_In|by apply bool_decide_eq_true in Hrow].
Qed.

Lemma find_has_Some k v (rows : list obj) row :
  find (Repository.has k v) rows = Some row → row ∈ rows ∧ row !! k = Some v.
Proof.
  intros [Hin Hrow]%find_some. split; [by apply list_elem_of_In|].
  by apply bool_decide_eq_true in Hrow.
Qed.

Lemma find_has_taken k v (rows : list obj) :
  taken k v rows → ∃ row, find (Repository.has k v) rows = Some row.
Proof.
  intros Htaken. destruct (find _ rows) as [row|] eqn:Hfind; [by exists row|].
  by apply find_has_None in Hfind.
Qed.

Lemma same_spec k (a b : obj) :
  Repository.same k a b = true ↔ ∃ v, a !! k = Some v ∧ b !! k = Some v.
Proof.
  unfold Repository.same, Repository.has. destruct (a !! k) as [v|].
  - rewrite bool_decide_eq_true. split.
    + intros Hb. by exists v.
    + by intros (v' & [= <-] & Hb).
  - split; [done|]. by intros (v & ? & _).
Qed.

Lemma existsb_clash_false entity (rows : list obj) :
  (∀ row, row ∈ rows → Repository.clash entity row = false) →
  existsb (Repository.clash entity) rows = false.
Proof.
  intros Hrows. apply not_true_is_false. intros (row & Hin & Hclash)%existsb_exists.
  apply list_elem_of_In in Hin. by rewrite Hrows in Hclash.
Qed.

Lemma existsb_has_taken k v (rows : list obj) :
  existsb (Repository.has k v) rows = true ↔ taken k v rows.
Proof.
  rewrite existsb_exists. unfold taken, Repository.has.
  split; intros (row & Hin & Hrow); exists row;
    (split; [by apply list_elem_of_In|]);
    [by apply bool_decide_eq_true in Hrow|by apply bool_decide_eq_true].
Qed.

(** Under the unique constraints, two rows holding the same value in a
    constrained column are one row. *)
Lemma NoDup_omap_inj {A B} (f : A → option B) (l : list A) x y b :
  NoDup (omap f l) → x ∈ l → y ∈ l → f x = Some b → f y = Some b → x = y.
Proof.
  induction l as [|a l IH]; intros Hnd Hx Hy Hfx Hfy; [by apply elem_of_nil in Hx|].
  cbn in Hnd. apply elem_of_cons in Hx, Hy.
  assert (∀ z, z ∈ l → f z = Some b → b ∈ omap f l) as Hin.
  { intros z Hz Hfz. apply list_elem_of_omap. by exists z. }
  destruct (f a) as [b'|] eqn:Hfa.
  - apply NoDup_cons in Hnd as [Hnotin Hnd].
    destruct Hx as [->|Hx], Hy as [->|Hy]; simplify_eq; eauto.
    + destruct Hnotin. eauto.
    + destruct Hnotin. eauto.
  - destruct Hx as [->|Hx], Hy as [->|Hy]; simplify_eq; eauto.
Qed.

Lemma changes_own k (user updateData : obj) :
  updateData !! k = user !! k → changes k user updateData = None.
Proof.
  intros Hown. unfold changes. destruct (updateData !! k) as [[|c v]|]; [done| |done].
  by rewrite bool_decide_eq_false_2 by (by intros []).
Qed.

Lemma changes_taken k (user updateData : obj) v :
  updateData !! k = Some v → v ≠ [] → user !! k ≠ Some v →
  changes k user updateData = Some v.
Proof.
  intros Hv Hne Hother. unfold changes. rewrite Hv. destruct v as [|c v]; [done|].
  by rewrite bool_decide_eq_true_2 by congruence.
Qed.



(** Replacing the row of key [i] by [entity], as [save] does. *)
Lemma find_replaced i entity (rows : list obj) :
  entity !! "id" = Some i →
  taken "id" i rows →
  find (Repository.has "id" i)
    ((λ row, if Repository.has "id" i row then entity else row) <$> rows)
  = Some entity.
Proof.
  intros Hid (row & Hin & Hrow). induction rows as [|r rows IH]; [by apply elem_of_nil in Hin|].
  cbn. destruct (Repository.has "id" i r) eqn:Hr.
  - unfold Repository.has at 1. by rewrite bool_decide_eq_true_2.
  - rewrite Hr. apply IH. apply elem_of_cons in Hin as [->|Hin]; [|done].
    unfold Repository.has in Hr. by rewrite bool_decide_eq_true_2 in Hr.
Qed.

Lemma filter_replaced i entity (rows : list obj) :
  entity !! "id" = Some i →
  filter (λ row, ¬ Repository.has "id" i row)
    ((λ row, if Repository.has "id" i row then entity else row) <$> rows)
  = filter (λ row, ¬ Repository.has "id" i row) rows.
Proof.
  intros Hid. induction rows as [|r rows IH]; [done|].
  rewrite fmap_cons. destruct (Repository.has "id" i r) eqn:Hr.
  - rewrite (filter_cons_False _ entity), (filter_cons_False _ r); [done|..];
      intros Hno; apply Hno.
    + by rewrite Hr.
    + by apply bool_decide_pack.
  - rewrite !filter_cons_True; [by rewrite IH|..]; rewrite Hr; by intros [].
Qed.

Section service_facts.
Context (env : Env).

Lemma save_throws entity rows e rows' :
  Repository.save env entity rows = (Throw e, rows') →
  e = Repository.UniqueViolation ∧ rows' = interleave env rows.
Proof.
  unfold Repository.save, Repository.query. intros Hsave.
  destruct (existsb _ _); [by simplify_eq|].
  destruct (entity !! "id"); [destruct (existsb _ _)|]; simplify_eq.
Qed.

Lemma hashPassword_run password rows :
  UserService.hashPassword env password rows
  = (Ok (hash env password (genSalt env UserService.SALT_ROUNDS)), rows).
Proof. done. Qed.

Lemma updateUserData_run user updateData rows :
  UserService.updateUserData env user updateData rows
  = Repository.save env (JS.assign user (hashed_patch env updateData)) rows.
Proof.
  unfold UserService.updateUserData, hashed_patch. run.
  by destruct (updateData !! "password") as [[|c p]|].
Qed.

Context (Hseq : sequential env).

Lemma findOne_seq k v rows :
  Repository.findOne env k v rows = (Ok (find (Repository.has k v) rows), rows).
Proof. unfold Repository.findOne, Repository.query. by rewrite Hseq. Qed.

Lemma findUserById_seq id rows :
  UserService.findUserById env id rows
  = match find (Repository.has "id" id) rows with
    | Some user => (Ok user, rows)
    | None => (Throw (UserService.NotFound UserService.user_not_found), rows)
    end.
Proof.
  unfold UserService.findUserById. run. rewrite findOne_seq.
  by destruct (find _ rows).
Qed.

Lemma validateUniqueConstraints_seq dto rows :
  UserService.validateUniqueConstraints env dto rows
  = if find (Repository.has "email" (email dto)) rows is Some _
    then (Throw (UserService.Conflict UserService.email_taken), rows)
    else if find (Repository.has "username" (username dto)) rows is Some _
    then (Throw (UserService.Conflict UserService.username_taken), rows)
    else (Ok (), rows).
Proof.
  unfold UserService.validateUniqueConstraints, UserService.findByEmail,
    UserService.findByUsername. run. rewrite !findOne_seq.
  by destruct (find (Repository.has "email" (email dto)) rows),
       (find (Repository.has "username" (username dto)) rows).
Qed.

Lemma save_seq entity rows :
  Repository.save env entity rows
  = if existsb (Repository.clash entity) rows
    then (Throw Repository.UniqueViolation, rows)
    else match entity !! "id" with
         | Some i =>
             if existsb (Repository.has "id" i) rows
             then (Ok entity,
                   (λ row, if Repository.has "id" i row then entity else row) <$> rows)
             else (Ok entity, rows ++ [entity])
         | None =>
             (Ok (<["id" := generate_id env rows]> entity),
              rows ++ [<["id" := generate_id env rows]> entity])
         end.
Proof. unfold Repository.save, Repository.query. by rewrite Hseq. Qed.

Lemma new_user_lookup dto :
  new_user env dto !! "email" = Some (email dto)
  ∧ new_user env dto !! "username" = Some (JS.trim (username dto))
  ∧ new_user env dto !! "password"
    = Some (hash env (JS.trim (password dto)) (genSalt env UserService.SALT_ROUNDS))
  ∧ new_user env dto !! "id" = profile dto !! "id".
Proof.
  unfold new_user, properties, trimmed; cbn.
  split_and!; by simplify_map_eq.
Qed.

(** [create], run alone, step by step. *)
Lemma create_seq dto rows :
  UserService.create env dto rows
  = if find (Repository.has "email" (email dto)) rows is Some _
    then (Throw (UserService.Conflict UserService.email_taken), rows)
    else if find (Repository.has "username" (JS.trim (username dto))) rows is Some _
    then (Throw (UserService.Conflict UserService.username_taken), rows)
    else match Repository.save env (new_user env dto) rows with
         | (Ok savedUser, rows') =>
             (Ok (ResponseUtil.success (UserMapper.toResponseDto savedUser)
                    "Tạo người dùng thành công"), rows')
         | (Throw e, rows') => (Throw e, rows')
         end.
Proof.
  unfold UserService.create. run. fold (trimmed dto).
  rewrite validateUniqueConstraints_seq.
  change (email (trimmed dto)) with (email dto).
  change (username (trimmed dto)) with (JS.trim (username dto)).
  destruct (find (Repository.has "email" _) rows); [done|].
  destruct (find (Repository.has "username" _) rows); [done|].
  rewrite hashPassword_run.
  change (UserMapper.toEntity _) with (new_user env dto).
  by destruct (Repository.save env (new_user env dto) rows) as [[saved|e] rows'].
Qed.

(** A fresh email and a fresh trimmed username make the insertion go
    through. *)
Lemma save_new_user dto rows :
  ¬ taken "email" (email dto) rows →
  ¬ taken "username" (JS.trim (username dto)) rows →
  profile dto !! "id" = None →
  Repository.save env (new_user env dto) rows
  = (Ok (<["id" := generate_id env rows]> (new_user env dto)),
     rows ++ [<["id" := generate_id env rows]> (new_user env dto)]).
Proof.
  intros Hemail Huser Hid. rewrite save_seq.
  destruct (new_user_lookup dto) as (He & Hu & _ & Hi).
  rewrite existsb_clash_false, Hi, Hid; [done|].
  intros row Hrow. unfold Repository.clash.
  apply andb_false_intro2, orb_false_intro; apply not_true_is_false.
  - intros (v & Hv & Hrv)%same_spec. apply Hemail. exists row. by simplify_eq.
  - intros (v & Hv & Hrv)%same_spec. apply Huser. exists row. by simplify_eq.
Qed.

(** [update], run alone, step by step. *)
Lemma validateUpdateConstraints_seq user updateData rows :
  UserService.validateUpdateConstraints env user updateData rows
  = if changes "email" user updateData ≫= (λ e, find (Repository.has "email" e) rows)
       is Some _
    then (Throw (UserService.Conflict UserService.email_taken), rows)
    else if changes "username" user updateData
            ≫= (λ u, find (Repository.has "username" u) rows) is Some _
    then (Throw (UserService.Conflict UserService.username_taken), rows)
    else (Ok (), rows).
Proof.
  unfold UserService.validateUpdateConstraints, UserService.findByEmail,
    UserService.findByUsername, changes. run.
  destruct (updateData !! "email") as [[|c e]|]; cbn;
    [| destruct (bool_decide (Some (c :: e) ≠ user !! "email")); cbn;
       [rewrite findOne_seq;
        destruct (find (Repository.has "email" (c :: e)) rows); [done|] |] |];
    (destruct (updateData !! "username") as [[|d u]|]; cbn; [done| |done];
     destruct (bool_decide (Some (d :: u) ≠ user !! "username")); cbn; [|done];
     rewrite findOne_seq;
     by destruct (find (Repository.has "username" (d :: u)) rows)).
Qed.

Lemma update_seq id updateData rows :
  UserService.update env id updateData rows
  = match find (Repository.has "id" id) rows with
    | None => (Throw (UserService.NotFound UserService.user_not_found), rows)
    | Some user =>
        match UserService.validateUpdateConstraints env user updateData rows with
        | (Throw e, rows') => (Throw e, rows')
        | (Ok _, rows') =>
            match Repository.save env (JS.assign user (hashed_patch env updateData)) rows' with
            | (Ok updatedUser, rows'') =>
                (Ok (ResponseUtil.success (UserMapper.toResponseDto updatedUser)
                       "Cập nhật thông tin người dùng thành công"), rows'')
            | (Throw e, rows'') => (Throw e, rows'')
            end
        end
    end.
Proof.
  unfold UserService.update. run. rewrite findUserById_seq.
  destruct (find (Repository.has "id" id) rows) as [user|]; [|done].
  destruct (UserService.validateUpdateConstraints env user updateData rows)
    as [[[]|e] rows']; [|done].
  rewrite (updateUserData_run user updateData rows').
  by destruct (Repository.save env _ rows') as [[saved|e] rows''].
Qed.

(** Saving an entity that keeps the key, the email and the username of a
    row of a consistent table replaces that row and no other. *)
Lemma clash_free_in_place user entity rows :
  consistent rows →
  user ∈ rows →
  is_Some (user !! "id") →
  entity !! "id" = user !! "id" →
  entity !! "email" = user !! "email" →
  entity !! "username" = user !! "username" →
  existsb (Repository.clash entity) rows = false.
Proof.
  intros (_ & Hemails & Hnames) Huser [i Hi] Hid Hemail Hname.
  apply existsb_clash_false. intros row Hrow. unfold Repository.clash.
  destruct (Repository.same "email" entity row || Repository.same "username" entity row)
    eqn:Hsame; [|by rewrite andb_false_r].
  assert (row = user) as ->.
  { apply orb_true_iff in Hsame as [(v & Hv & Hrv)%same_spec|(v & Hv & Hrv)%same_spec].
    - apply (NoDup_omap_inj (.!! "email") rows row user v); congruence.
    - apply (NoDup_omap_inj (.!! "username") rows row user v); congruence. }
  rewrite andb_true_r. apply negb_false_iff, same_spec. exists i. by rewrite Hid.
Qed.

Lemma save_in_place user entity rows i :
  consistent rows →
  user ∈ rows →
  user !! "id" = Some i →
  entity !! "id" = Some i →
  entity !! "email" = user !! "email" →
  entity !! "username" = user !! "username" →
  Repository.save env entity rows
  = (Ok entity, (λ row, if Repository.has "id" i row then entity else row) <$> rows).
Proof.
  intros Hcons Huser Hid Heid Hemail Hname. rewrite save_seq.
  rewrite (clash_free_in_place user) by (done || congruence).
  rewrite Heid. replace (existsb (Repository.has "id" i) rows) with true; [done|].
  symmetry. apply existsb_has_taken. by exists user.
Qed.

(** On a consistent table, an update that leaves the key alone and brings
    for the email and for the username nothing or the user's current value
    goes through: the user's row is replaced by the merged entity. *)
Lemma update_in_place id updateData rows user :
  consistent rows →
  find (Repository.has "id" id) rows = Some user →
  updateData !! "id" = None →
  (∀ k, k = "email" ∨ k = "username" →
        updateData !! k = None ∨ updateData !! k = user !! k) →
  let entity := JS.assign user (hashed_patch env updateData) in
  UserService.update env id updateData rows
  = (Ok (ResponseUtil.success (UserMapper.toResponseDto entity)
           "Cập nhật thông tin người dùng thành công"),
     (λ row, if Repository.has "id" id row then entity else row) <$> rows).
Proof.
  intros Hcons Hfind Hnoid Hown entity.
  apply find_has_Some in Hfind as Hu. destruct Hu as [Hin Hid].
  rewrite update_seq, Hfind, validateUpdateConstraints_seq.
  assert (∀ k, k = "email" ∨ k = "username" → changes k user updateData = None) as Hnone.
  { intros k Hk. destruct (Hown k Hk) as [Hk'|Hk']; [|by apply changes_own].
    unfold changes. by rewrite Hk'. }
  rewrite !Hnone by auto. cbn.
  assert (∀ k, k ≠ "password" → entity !! k = (updateData ∪ user) !! k) as Hentity.
  { intros k Hk. unfold entity, JS.assign, hashed_patch.
    destruct (updateData !! "password") as [[|c p]|]; [done| |done].
    by rewrite !lookup_union, lookup_insert_ne. }
  assert (∀ k, updateData !! k = None ∨ updateData !! k = user !! k →
               (updateData ∪ user) !! k = user !! k) as Hkeep.
  { intros k [Hk|Hk]; [by apply lookup_union_r|].
    rewrite lookup_union, Hk. by destruct (user !! k). }
  fold entity. rewrite (save_in_place user entity rows id); [done..| | |].
  - rewrite Hentity, Hkeep by auto. done.
  - rewrite Hentity, Hkeep by auto. done.
  - rewrite Hentity, Hkeep by auto. done.
Qed.

(** Whatever [update] answers, the row of the user is still there and holds,
    for every field the update data does not supply, what it held before;
    the other rows are as they were; and when [update] succeeds the row is
    the old one with the update data, its password hashed if non-empty,
    copied over it. *)
Lemma update_outcome id updateData rows user r rows' :
  find (Repository.has "id" id) rows = Some user →
  updateData !! "id" = None →
  UserService.update env id updateData rows = (r, rows') →
  ∃ user',
    find (Repository.has "id" id) rows' = Some user'
    ∧ (∀ k, updateData !! k = None → user' !! k = user !! k)
    ∧ filter (λ row, ¬ Repository.has "id" id row) rows'
      = filter (λ row, ¬ Repository.has "id" id row) rows
    ∧ (∀ response, r = Ok response →
         user' = JS.assign user (hashed_patch env updateData)).
Proof.
  intros Hfind Hnoid. rewrite update_seq, Hfind, validateUpdateConstraints_seq.
  apply find_has_Some in Hfind as Hu. destruct Hu as [Hin Hid].
  destruct (changes "email" user updateData ≫= _) as [?|].
  { intros [= <- <-]. exists user. by split_and!. }
  destruct (changes "username" user updateData ≫= _) as [?|].
  { intros [= <- <-]. exists user. by split_and!. }
  rewrite save_seq.
  destruct (existsb (Repository.clash _) rows).
  { intros [= <- <-]. exists user. by split_and!. }
  assert (∀ k, updateData !! k = None →
            JS.assign user (hashed_patch env updateData) !! k = user !! k) as Hframe.
  { intros k Hk. unfold JS.assign. apply lookup_union_r.
    unfold hashed_patch. destruct (updateData !! "password") as [[|c p]|] eqn:Hp; [done| |done].
    rewrite lookup_insert_ne; [done|]. by intros <-; simplify_eq. }
  rewrite (Hframe "id" Hnoid), Hid.
  replace (existsb (Repository.has "id" id) rows) with true
    by (symmetry; apply existsb_has_taken; by exists user).
  intros [= <- <-]. eexists. split_and!; [|done| |done].
  - apply find_replaced; [by rewrite Hframe|by exists user].
  - apply filter_replaced. by rewrite Hframe.
Qed.

End service_facts.

(** ** The sample collaborators meet the assumptions *)

Lemma demo_sequential : sequential Demo.env.
Proof. by intros rows. Qed.

Lemma trim_wrapped c (s : jstring) :
  JS.isWhiteSpace c = false → JS.trim (c :: s ++ [c]) = c :: s ++ [c].
Proof.
  intros Hc. unfold JS.trim, JS.trimEnd. cbn [JS.trimStart]. rewrite Hc.
  rewrite reverse_cons, reverse_app. change (reverse [c]) with [c].
  cbn [app JS.trimStart]. rewrite Hc.
  by rewrite reverse_cons, reverse_app, reverse_involutive.
Qed.

Lemma demo_bcrypt_like : bcrypt_like Demo.env.
Proof.
  split; intros password salt;
    change (hash Demo.env password salt) with (36%N :: salt ++ password ++ [36%N]).
  - intros Heq%(f_equal length). cbn in Heq. rewrite !length_app in Heq. lia.
  - rewrite (assoc_L (++) salt). by apply trim_wrapped.
Qed.

(** ** Creating a user *)

(** C1, as amended: run alone, [create] fails with a Conflict error and
    leaves the table as it was when the email of the request is already in
    the table, and when the username of the request, once trimmed, is
    already in the table. The message names the email when the email is
    taken, and the username when only the username is. *)
Theorem create_conflict env dto rows :
  sequential env →
  (taken "email" (email dto) rows →
     UserService.create env dto rows
     = (Throw (UserService.Conflict UserService.email_taken), rows))
  ∧ (taken "username" (JS.trim (username dto)) rows →
     ∃ message,
       UserService.create env dto rows = (Throw (UserService.Conflict message), rows)
       ∧ (message = UserService.email_taken ∧ taken "email" (email dto) rows
          ∨ message = UserService.username_taken ∧ ¬ taken "email" (email dto) rows)).
Proof.
  intros Hseq. rewrite (create_seq env Hseq). split.
  - intros [row ->]%find_has_taken. done.
  - intros [row Hrow]%find_has_taken.
    destruct (find (Repository.has "email" _) rows) as [row'|] eqn:Hemail.
    + exists UserService.email_taken. split; [done|left]. split; [done|].
      exists row'. by apply find_has_Some.
    + rewrite Hrow. exists UserService.username_taken. split; [done|right].
      split; [done|]. by apply find_has_None.
Qed.

Lemma create_conflict_witness :
  let dto := mkCreateUserDto (js "alice2") (js "a@x.com") (js "secret") ∅ in
  taken "email" (email dto) [Demo.alice]
  ∧ UserService.create Demo.env dto [Demo.alice]
    = (Throw (UserService.Conflict UserService.email_taken), [Demo.alice]).
Proof.
  intros dto.
  assert (taken "email" (email dto) [Demo.alice]) as Htaken.
  { exists Demo.alice. split; [apply list_elem_of_here|reflexivity]. }
  split; [exact Htaken|].
  exact (proj1 (create_conflict Demo.env dto [Demo.alice] demo_sequential) Htaken).
Defined.

(** C1, as stated, fails: the uniqueness check looks for the trimmed
    username. A request whose username, blanks included, is in the table is
    accepted when the trimmed username is not there. Such a table is within
    reach of the service: [update] stores a username as it comes. *)
Lemma create_accepts_untrimmed_duplicate :
  let dto := mkCreateUserDto (js " bob") (js "new@x.com") (js "secret") ∅ in
  let rows := [Demo.user "1" "z@x.com" " bob" "$2b$10$hash$"] in
  (UserService.update Demo.env (js "1") {["username" := js " bob"]}
     [Demo.user "1" "z@x.com" "zed" "$2b$10$hash$"]).2 = rows
  ∧ taken "username" (username dto) rows
  ∧ ∃ response stored,
      UserService.create Demo.env dto rows = (Ok response, rows ++ [stored])
      ∧ stored !! "username" = Some (js "bob").
Proof.
  intros dto rows. split; [reflexivity|]. split.
  - eexists. split; [apply list_elem_of_here|reflexivity].
  - rewrite (create_seq _ demo_sequential).
    change (find (Repository.has "email" _) rows) with (@None obj).
    change (find (Repository.has "username" _) rows) with (@None obj).
    rewrite (save_new_user _ demo_sequential); [|by apply find_has_None..|done].
    eexists _, _. split; [done|].
    by destruct (new_user_lookup Demo.env dto) as (_ & Hu & _); simplify_map_eq.
Qed.

(** C2, as amended: run alone on a request (without primary key) whose
    email and whose trimmed username are both absent from the table,
    [create] succeeds and appends one row; the password stored in that row
    is the salted digest of the trimmed password, which differs from the
    password as supplied and as trimmed; the returned record is that row
    without its password field. *)
Theorem create_fresh env dto rows :
  sequential env →
  bcrypt_like env →
  profile dto !! "id" = None →
  ¬ taken "email" (email dto) rows →
  ¬ taken "username" (JS.trim (username dto)) rows →
  let digest := hash env (JS.trim (password dto)) (genSalt env UserService.SALT_ROUNDS) in
  let stored := <["id" := generate_id env rows]> (new_user env dto) in
  ∃ response,
    UserService.create env dto rows = (Ok response, rows ++ [stored])
    ∧ stored !! "password" = Some digest
    ∧ digest ≠ password dto
    ∧ digest ≠ JS.trim (password dto)
    ∧ data response = delete "password" stored
    ∧ data response !! "password" = None.
Proof.
  intros Hseq [Hneq Hblank] Hid Hemail Huser digest stored.
  eexists. rewrite (create_seq env Hseq).
  apply find_has_None in Hemail as Hfe. apply find_has_None in Huser as Hfu.
  rewrite Hfe, Hfu, (save_new_user env Hseq) by done.
  destruct (new_user_lookup env dto) as (_ & _ & Hp & _).
  split_and!; [done| | | |done|].
  - subst stored. by rewrite lookup_insert_ne.
  - intros Heq. apply (Hneq (JS.trim (password dto)) (genSalt env UserService.SALT_ROUNDS)).
    transitivity (JS.trim digest); [symmetry; apply Hblank|by f_equal].
  - apply Hneq.
  - cbn. unfold UserMapper.toResponseDto. apply lookup_delete_eq.
Qed.

Lemma create_fresh_witness :
  let dto := mkCreateUserDto (js "alice") (js "a@x.com") (js "secret") ∅ in
  ∃ response stored,
    UserService.create Demo.env dto [] = (Ok response, [stored])
    ∧ stored !! "password" ≠ Some (js "secret")
    ∧ data response !! "password" = None.
Proof.
  intros dto.
  assert (∀ k v, ¬ taken k v []) as Hfree.
  { by intros k v (row & Hrow%elem_of_nil & _). }
  destruct (create_fresh Demo.env dto [] demo_sequential demo_bcrypt_like
              eq_refl (Hfree _ _) (Hfree _ _))
    as (response & Hrun & Hstored & Hraw & _ & _ & Hresp).
  exists response, (<["id" := generate_id Demo.env []]> (new_user Demo.env dto)).
  split; [exact Hrun|]. split; [|exact Hresp].
  rewrite Hstored. intros Heq. apply Hraw. by injection Heq.
Defined.

(** C2, as stated, fails: a request whose username, blanks included, is
    absent from the table is refused when its trimmed username is there. *)
Lemma create_refuses_untrimmed_fresh :
  let dto := mkCreateUserDto (js " alice") (js "new@x.com") (js "secret") ∅ in
  ¬ taken "email" (email dto) [Demo.alice]
  ∧ ¬ taken "username" (username dto) [Demo.alice]
  ∧ UserService.create Demo.env dto [Demo.alice]
    = (Throw (UserService.Conflict UserService.username_taken), [Demo.alice]).
Proof.
  intros dto. split_and!.
  - by apply find_has_None.
  - by apply find_has_None.
  - by rewrite (create_seq _ demo_sequential).
Qed.

(** C6, as amended: [create] trims the username and the password, not the
    email. Run alone on a request without primary key, it fails with a
    Conflict error exactly when the email as supplied or the trimmed
    username is in the table, and otherwise appends a row holding the
    trimmed username, the email as supplied and the digest of the trimmed
    password. *)
Theorem create_normalizes env dto rows :
  sequential env →
  profile dto !! "id" = None →
  ((taken "email" (email dto) rows ∨ taken "username" (JS.trim (username dto)) rows)
   ∧ ∃ message,
       UserService.create env dto rows = (Throw (UserService.Conflict message), rows))
  ∨ (¬ taken "email" (email dto) rows
     ∧ ¬ taken "username" (JS.trim (username dto)) rows
     ∧ ∃ response stored,
         UserService.create env dto rows = (Ok response, rows ++ [stored])
         ∧ stored !! "username" = Some (JS.trim (username dto))
         ∧ stored !! "email" = Some (email dto)
         ∧ stored !! "password"
           = Some (hash env (JS.trim (password dto))
                     (genSalt env UserService.SALT_ROUNDS))).
Proof.
  intros Hseq Hid. rewrite (create_seq env Hseq).
  destruct (find (Repository.has "email" (email dto)) rows) as [row|] eqn:Hfe.
  { left. split; [|by eexists]. left. exists row. by apply find_has_Some. }
  destruct (find (Repository.has "username" (JS.trim (username dto))) rows)
    as [row|] eqn:Hfu.
  { left. split; [|by eexists]. right. exists row. by apply find_has_Some. }
  apply find_has_None in Hfe as Hemail. apply find_has_None in Hfu as Huser.
  right. split_and!; [done..|].
  rewrite (save_new_user env Hseq) by done.
  destruct (new_user_lookup env dto) as (He & Hu & Hp & _).
  eexists _, _. split; [done|]. by rewrite !lookup_insert_ne.
Qed.

Lemma create_normalizes_witness :
  let dto := mkCreateUserDto (js "  alice ") (js "a@x.com") (js " secret ") ∅ in
  ∃ response stored,
    UserService.create Demo.env dto [Demo.bob] = (Ok response, [Demo.bob; stored])
    ∧ stored !! "username" = Some (js "alice")
    ∧ stored !! "password"
      = Some (hash Demo.env (js "secret") (genSalt Demo.env UserService.SALT_ROUNDS)).
Proof.
  intros dto.
  destruct (create_normalizes Demo.env dto [Demo.bob] demo_sequential eq_refl)
    as [[_ [message Hrun]]|(_ & _ & response & stored & Hrun & Hu & _ & Hp)].
  - exfalso. rewrite (create_seq _ demo_sequential) in Hrun.
    change (find (Repository.has "email" _) [Demo.bob]) with (@None obj) in Hrun.
    change (find (Repository.has "username" _) [Demo.bob]) with (@None obj) in Hrun.
    rewrite (save_new_user _ demo_sequential) in Hrun;
      [discriminate Hrun|by apply find_has_None..|done].
  - exists response, stored. split; [exact Hrun|]. split; [exact Hu|exact Hp].
Defined.

(** C6, as stated, fails for the email: it is looked up and stored with
    its surrounding blanks, so a request whose email differs from a
    registered one by a leading blank is accepted. *)
Lemma create_keeps_email_blanks :
  let dto := mkCreateUserDto (js "al") (js " a@x.com") (js "secret") ∅ in
  taken "email" (JS.trim (email dto)) [Demo.alice]
  ∧ ∃ response stored,
      UserService.create Demo.env dto [Demo.alice] = (Ok response, [Demo.alice; stored])
      ∧ stored !! "email" = Some (js " a@x.com").
Proof.
  intros dto. split.
  - exists Demo.alice. split; [apply list_elem_of_here|reflexivity].
  - rewrite (create_seq _ demo_sequential).
    change (find (Repository.has "email" _) [Demo.alice]) with (@None obj).
    change (find (Repository.has "username" _) [Demo.alice]) with (@None obj).
    rewrite (save_new_user _ demo_sequential); [|by apply find_has_None..|done].
    eexists _, _. split; [done|].
    by destruct (new_user_lookup Demo.env dto) as (He & _); simplify_map_eq.
Qed.

(** ** Updating a user *)







(** C10: for a user of the table, [update] with the password set to the
    empty string does not hash: the entity saved is the user's row with the
    update data copied over it as they are, so that when the update goes
    through the stored password is the empty string. It does go through, on
    a consistent table and run alone, when the update data bring for the
    email and for the username nothing or the user's current value. *)
Theorem update_empty_password env id updateData rows user :
  sequential env →
  find (Repository.has "id" id) rows = Some user →
  updateData !! "password" = Some [] →
  updateData !! "id" = None →
  (∀ rows0, UserService.updateUserData env user updateData rows0
            = Repository.save env (JS.assign user updateData) rows0)
  ∧ JS.assign user updateData !! "password" = Some []
  ∧ (∀ response rows',
       UserService.update env id updateData rows = (Ok response, rows') →
       find (Repository.has "id" id) rows' = Some (JS.assign user updateData))
  ∧ (consistent rows →
     (∀ k, k = "email" ∨ k = "username" →
           updateData !! k = None ∨ updateData !! k = user !! k) →
     ∃ response rows' user',
       UserService.update env id updateData rows = (Ok response, rows')
       ∧ find (Repository.has "id" id) rows' = Some user'
       ∧ user' !! "password" = Some []).
Proof.
  intros Hseq Hfind Hp Hnoid.
  assert (hashed_patch env updateData = updateData) as Hsame.
  { unfold hashed_patch. by rewrite Hp. }
  split_and!.
  - intros rows0. by rewrite updateUserData_run, Hsame.
  - unfold JS.assign. by apply lookup_union_Some_l.
  - intros response rows' Hrun.
    destruct (update_outcome env Hseq id updateData rows user _ _ Hfind Hnoid Hrun)
      as (user' & Hfind' & _ & _ & Hok).
    by rewrite Hfind', (Hok response eq_refl), Hsame.
  - intros Hcons Hown. apply find_has_Some in Hfind as Hu. destruct Hu as [Hin Hid].
    rewrite (update_in_place env Hseq id updateData rows user) by done.
    rewrite Hsame. eexists _, _, _. split_and!; [done| |].
    + apply find_replaced; [|by exists user].
      unfold JS.assign. by rewrite lookup_union_r.
    + unfold JS.assign. by apply lookup_union_Some_l.
Qed.

Lemma update_empty_password_witness :
  ∃ response rows' user',
    UserService.update Demo.env (js "1") {["password" := []]} [Demo.alice; Demo.bob]
    = (Ok response, rows')
    ∧ find (Repository.has "id" (js "1")) rows' = Some user'
    ∧ user' !! "password" = Some [].
Proof.
  apply (update_empty_password Demo.env (js "1") {["password" := []]}
           [Demo.alice; Demo.bob] Demo.alice demo_sequential); [reflexivity..| |].
  - unfold consistent. split_and!; apply (bool_decide_unpack _); by vm_compute.
  - intros k [-> | ->]; by left.
Defined.

(** ** Errors of the persistence layer *)

(** C7, as amended: the service has no handler around [save]. When the
    uniqueness pre-check of [create] or [update] has passed and [save] then
    fails, the operation fails with the very error of [save], which is the
    database's [QueryFailedError] for the violated constraint and not a
    Conflict error. This holds whatever other requests do meanwhile. *)
Theorem persistence_error_surfaces env :
  (∀ dto rows rows1 e rows2,
     UserService.validateUniqueConstraints env (trimmed dto) rows = (Ok (), rows1) →
     Repository.save env (new_user env dto) rows1 = (Throw e, rows2) →
     UserService.create env dto rows = (Throw e, rows2)
     ∧ e = Repository.UniqueViolation
     ∧ exn_class e = QueryFailedError)
  ∧ (∀ id updateData rows user rows0 rows1 e rows2,
     UserService.findUserById env id rows = (Ok user, rows0) →
     UserService.validateUpdateConstraints env user updateData rows0 = (Ok (), rows1) →
     UserService.updateUserData env user updateData rows1 = (Throw e, rows2) →
     UserService.update env id updateData rows = (Throw e, rows2)
     ∧ e = Repository.UniqueViolation
     ∧ exn_class e = QueryFailedError).
Proof.
  split.
  - intros dto rows rows1 e rows2 Hcheck Hsave.
    destruct (save_throws env _ _ _ _ Hsave) as [-> _].
    split; [|done]. unfold UserService.create. run. fold (trimmed dto).
    rewrite Hcheck, hashPassword_run.
    change (UserMapper.toEntity _) with (new_user env dto). by rewrite Hsave.
  - intros id updateData rows user rows0 rows1 e rows2 Hfind Hcheck Hsave.
    rewrite updateUserData_run in Hsave.
    destruct (save_throws env _ _ _ _ Hsave) as [-> _].
    split; [|done]. unfold UserService.update. run.
    by rewrite Hfind, Hcheck, updateUserData_run, Hsave.
Qed.

Lemma persistence_error_surfaces_witness :
  let env := Demo.racing Demo.carol Demo.rival in
  let dto := mkCreateUserDto (js "alice") (js "a@x.com") (js "secret") ∅ in
  UserService.create env dto []
  = (Throw Repository.UniqueViolation, [Demo.carol; Demo.rival]).
Proof.
  intros env dto.
  refine (proj1 (proj1 (persistence_error_surfaces env) dto [] [Demo.carol; Demo.rival]
                   Repository.UniqueViolation [Demo.carol; Demo.rival] _ _));
    reflexivity.
Defined.

(** C7, as stated, fails. Another client registers the email of the
    request between the email lookup of [create] and its [save]: the
    pre-check passes, the table refuses the insertion, and [create] fails
    with the database's error, whose class is not that of the Conflict
    error of the pre-check. Run alone, [update] does the same when it sets
    an empty email that another user holds. *)
Lemma race_surfaces_query_error :
  let env := Demo.racing Demo.carol Demo.rival in
  let dto := mkCreateUserDto (js "alice") (js "a@x.com") (js "secret") ∅ in
  let rows := [Demo.user "1" "" "ann" "$2b$10$hash-of-ann$"; Demo.bob] in
  UserService.validateUniqueConstraints env (trimmed dto) []
  = (Ok (), [Demo.carol; Demo.rival])
  ∧ UserService.create env dto []
    = (Throw Repository.UniqueViolation, [Demo.carol; Demo.rival])
  ∧ UserService.validateUpdateConstraints Demo.env Demo.bob {["email" := []]} rows
    = (Ok (), rows)
  ∧ UserService.update Demo.env (js "2") {["email" := []]} rows
    = (Throw Repository.UniqueViolation, rows)
  ∧ exn_class Repository.UniqueViolation ≠ ConflictException.
Proof. intros env dto rows. split_and!; [reflexivity..|done]. Qed.

(** ** Looking up and removing a user *)

Section lookup_facts.
Context (env : Env) (Hseq : sequential env).

Lemma remove_seq id rows :
  UserService.remove env id rows
  = match find (Repository.has "id" id) rows with
    | None => (Throw (UserService.NotFound UserService.user_not_found), rows)
    | Some _ =>
        (Ok (ResponseUtil.success (UserService.mkDeleted true) "Xóa người dùng thành công"),
         filter (λ row, ¬ Repository.has "id" id row) rows)
    end.
Proof.
  unfold UserService.remove. run. rewrite (findUserById_seq env Hseq).
  destruct (find (Repository.has "id" id) rows) as [user|] eqn:Hfind; [|done].
  apply find_has_Some in Hfind as [_ Hid].
  unfold Repository.remove, Repository.query. by rewrite Hid, Hseq.
Qed.

End lookup_facts.

(** C9: run alone, [remove], [update] and [findOne] on an id that is not
    in the table fail with the NotFound error and leave the table as it
    was; [remove] on an id that is in the table answers with the
    acknowledgment [{ deleted: true }] and leaves the table without any row
    of that id, the other rows being kept. *)
Theorem remove_outcomes env id rows :
  sequential env →
  (¬ taken "id" id rows →
     UserService.remove env id rows
     = (Throw (UserService.NotFound UserService.user_not_found), rows)
     ∧ (∀ updateData,
          UserService.update env id updateData rows
          = (Throw (UserService.NotFound UserService.user_not_found), rows))
     ∧ UserService.findOne env id rows
       = (Throw (UserService.NotFound UserService.user_not_found), rows))
  ∧ (taken "id" id rows →
     ∃ rows',
       UserService.remove env id rows
       = (Ok (ResponseUtil.success (UserService.mkDeleted true)
                "Xóa người dùng thành công"), rows')
       ∧ ¬ taken "id" id rows'
       ∧ (∀ row, row ∈ rows' ↔ row ∈ rows ∧ row !! "id" ≠ Some id)).
Proof.
  intros Hseq. split.
  - intros Hfree%find_has_None. split_and!.
    + by rewrite (remove_seq env Hseq), Hfree.
    + intros updateData. by rewrite (update_seq env Hseq), Hfree.
    + unfold UserService.findOne. run. by rewrite (findUserById_seq env Hseq), Hfree.
  - intros [user Hfind]%find_has_taken. rewrite (remove_seq env Hseq), Hfind.
    assert (∀ row, row ∈ filter (λ row, ¬ Repository.has "id" id row) rows
                   ↔ row ∈ rows ∧ row !! "id" ≠ Some id) as Hrows.
    { intros row. rewrite list_elem_of_filter. unfold Repository.has.
      rewrite bool_decide_spec. tauto. }
    eexists. split_and!; [done| |done].
    intros (row & Hin & Hid). by apply Hrows in Hin as [_ Hne].
Qed.

Lemma remove_outcomes_witness :
  UserService.remove Demo.env (js "3") [Demo.alice; Demo.bob]
  = (Throw (UserService.NotFound UserService.user_not_found), [Demo.alice; Demo.bob])
  ∧ ∃ rows',
      UserService.remove Demo.env (js "1") [Demo.alice; Demo.bob]
      = (Ok (ResponseUtil.success (UserService.mkDeleted true)
               "Xóa người dùng thành công"), rows')
      ∧ ¬ taken "id" (js "1") rows'.
Proof.
  split.
  - apply (proj1 (remove_outcomes Demo.env (js "3") [Demo.alice; Demo.bob] demo_sequential)).
    by apply find_has_None.
  - destruct (proj2 (remove_outcomes Demo.env (js "1") [Demo.alice; Demo.bob]
                       demo_sequential))
      as (rows' & Hrun & Hgone & _).
    + exists Demo.alice. split; [apply list_elem_of_here|reflexivity].
    + by exists rows'.
Defined.

(** ** Further properties of the guard *)

(** The guard reads nothing of the request but its headers. *)
Lemma canActivate_by_headers jwt request :
  AuthGuard.canActivate jwt request
  = match presented jwt (req_headers request) with
    | Some payload => (Ok true, mkRequest (req_headers request) (Some payload))
    | None => (Throw AuthGuard.Unauthorized, request)
    end.
Proof.
  unfold AuthGuard.canActivate, mbind, M_bind, get; cbn. unfold presented.
  destruct (req_headers request !! "authorization") as [[|c s]|] eqn:Hh;
    [by rewrite extractTokenFromHeader_no_header by (by rewrite Hh)
    | |by rewrite extractTokenFromHeader_no_header by (by rewrite Hh)].
  rewrite (extractTokenFromHeader_header _ _ Hh) by done.
  case_bool_decide; [|done].
  destruct (JS.split 32 (c :: s) !! 1%nat) as [[|d t]|]; [done| |done].
  unfold try_catch, lift, put, throw, mbind, M_bind; cbn.
  by destruct (verifyAsync jwt (d :: t) (JWT_SECRET jwt)).
Qed.

Lemma presented_header jwt (headers : gmap string jstring) header :
  headers !! "authorization" = Some header →
  header ≠ [] →
  presented jwt headers
  = if bool_decide (JS.split 32 header !! 0%nat = Some (js "Bearer")) then
      match JS.split 32 header !! 1%nat with
      | Some (d :: t) =>
          match verifyAsync jwt (d :: t) (JWT_SECRET jwt) with
          | Ok payload => Some payload
          | Throw _ => None
          end
      | _ => None
      end
    else None.
Proof. unfold presented. intros -> Hne. by destruct header. Qed.

Lemma split_bearer_more (token rest : jstring) :
  32%N ∉ token →
  JS.split 32 (js "Bearer " ++ token ++ 32%N :: rest)
  = js "Bearer" :: token :: JS.split 32 rest.
Proof.
  intros Htok.
  change (js "Bearer " ++ token ++ 32%N :: rest)
    with (js "Bearer" ++ 32%N :: token ++ 32%N :: rest).
  rewrite split_at_separator by (by apply (bool_decide_unpack _)).
  by rewrite split_at_separator.
Qed.

(** X1: what follows a second space in the Authorization header has no
    part in the verdict of the guard: a header [Bearer <token> <rest>] is
    judged as the header [Bearer <token>], whatever [rest] and whether or
    not the token is valid. *)
Theorem guard_ignores_trailing_text jwt request1 request2 token rest :
  32%N ∉ token →
  req_headers request1 !! "authorization" = Some (js "Bearer " ++ token ++ 32%N :: rest) →
  req_headers request2 !! "authorization" = Some (js "Bearer " ++ token) →
  (AuthGuard.canActivate jwt request1).1 = (AuthGuard.canActivate jwt request2).1
  ∧ presented jwt (req_headers request1) = presented jwt (req_headers request2).
Proof.
  intros Htok H1 H2.
  assert (presented jwt (req_headers request1) = presented jwt (req_headers request2)) as Heq.
  { rewrite (presented_header _ _ _ H1), (presented_header _ _ _ H2) by done.
    by rewrite split_bearer_more, split_bearer. }
  split; [|done]. rewrite !canActivate_by_headers, Heq.
  by destruct (presented jwt (req_headers request2)).
Qed.

Lemma guard_ignores_trailing_text_witness :
  (AuthGuard.canActivate Demo.jwt (Demo.request "Bearer good and more")).1
  = (AuthGuard.canActivate Demo.jwt (Demo.request "Bearer good")).1.
Proof.
  refine (proj1 (guard_ignores_trailing_text Demo.jwt
                   (Demo.request "Bearer good and more") (Demo.request "Bearer good")
                   (js "good") (js "and more") _ _ _)).
  - by apply (bool_decide_unpack _).
  - reflexivity.
  - reflexivity.
Defined.

(** X2: the guard is strict on the shape of what precedes the token. It
    throws Unauthorized, without asking the JWT library, when the header
    holds no space at all (so for [Bearer] alone, and for a bare token),
    when what precedes the first space is not exactly [Bearer] (so for
    [bearer] and [BEARER]), and when two spaces follow [Bearer]. *)
Theorem guard_strict_header jwt request header :
  req_headers request !! "authorization" = Some header →
  (32%N ∉ header
   ∨ (∃ scheme rest,
        header = scheme ++ (32%N :: rest) ∧ (32%N ∉ scheme) ∧ scheme ≠ js "Bearer")
   ∨ (∃ rest, header = js "Bearer" ++ 32%N :: 32%N :: rest)) →
  AuthGuard.canActivate jwt request = (Throw AuthGuard.Unauthorized, request)
  ∧ presented jwt (req_headers request) = None.
Proof.
  intros Hh Hshape.
  assert (rejected jwt request) as Hrej.
  { destruct Hshape as [Hnone|[(scheme & rest & -> & Hsp & Hne)|(rest & ->)]].
    - apply (rejected_no_token _ _ header Hh). by rewrite split_no_separator.
    - apply (rejected_scheme _ _ _ Hh). rewrite split_at_separator by done.
      intros Heq. apply Hne. by injection Heq.
    - apply (rejected_no_token _ _ _ Hh).
      by rewrite split_at_separator by (by apply (bool_decide_unpack _)). }
  pose proof (canActivate_rejected jwt request Hrej) as Hcan. split; [done|].
  rewrite canActivate_by_headers in Hcan.
  by destruct (presented jwt (req_headers request)).
Qed.

Lemma guard_strict_header_witness :
  AuthGuard.canActivate Demo.jwt (Demo.request "bearer good")
  = (Throw AuthGuard.Unauthorized, Demo.request "bearer good")
  ∧ AuthGuard.canActivate Demo.jwt (Demo.request "Bearer  good")
    = (Throw AuthGuard.Unauthorized, Demo.request "Bearer  good")
  ∧ AuthGuard.canActivate Demo.jwt (Demo.request "good")
    = (Throw AuthGuard.Unauthorized, Demo.request "good").
Proof.
  split_and!.
  - refine (proj1 (guard_strict_header Demo.jwt (Demo.request "bearer good")
                     (js "bearer good") eq_refl _)).
    right; left. exists (js "bearer"), (js "good").
    split_and!; [reflexivity|by apply (bool_decide_unpack _)|discriminate].
  - refine (proj1 (guard_strict_header Demo.jwt (Demo.request "Bearer  good")
                     (js "Bearer  good") eq_refl _)).
    right; right. by exists (js "good").
  - refine (proj1 (guard_strict_header Demo.jwt (Demo.request "good")
                     (js "good") eq_refl _)).
    left. by apply (bool_decide_unpack _).
Defined.


(** ** Further properties of the user service *)

Section more_service_facts.
Context (env : Env).

Lemma getMyInfo_run request rows :
  UserService.getMyInfo env request rows
  = match identity_of request with
    | Some (c :: i) =>
        match UserService.findUserById env (c :: i) rows with
        | (Ok user, rows') =>
            (Ok (ResponseUtil.success (UserMapper.toResponseDto user)
                   "Lấy thông tin cá nhân thành công"), rows')
        | (Throw e, rows') => (Throw e, rows')
        end
    | _ => (Throw (UserService.NotFound identity_missing), rows)
    end.
Proof.
  unfold UserService.getMyInfo. destruct request as [[headers [payload|]]|]; cbn; [|done..].
  destruct (payload !! "id") as [[|c i]|]; [done| |done]. run.
  by destruct (UserService.findUserById env (c :: i) rows) as [[user|e] rows'].
Qed.







End more_service_facts.


(** X5: without an identity, [getMyInfo] fails with its own NotFound error
    and does not go to the database: the table is as it was, whatever other
    requests do. This is the case when there is no request object, when the
    request has no [user], when the payload has no [id], and when the [id]
    is the empty string. *)
Theorem getMyInfo_without_identity env request rows :
  (request = None
   ∨ (∃ headers, request = Some (mkRequest headers None))
   ∨ (∃ headers payload,
        request = Some (mkRequest headers (Some payload))
        ∧ (payload !! "id" = None ∨ payload !! "id" = Some []))) →
  UserService.getMyInfo env request rows
  = (Throw (UserService.NotFound identity_missing), rows).
Proof.
  intros Hno. rewrite getMyInfo_run.
  destruct Hno as [->|[[headers ->]|(headers & payload & -> & [Hid|Hid])]];
    unfold identity_of; cbn; by rewrite ?Hid.
Qed.

Lemma getMyInfo_without_identity_witness :
  UserService.getMyInfo (Demo.racing Demo.carol Demo.rival)
    (Some (mkRequest ∅ (Some {["sub" := js "1"]}))) [Demo.alice]
  = (Throw (UserService.NotFound identity_missing), [Demo.alice]).
Proof.
  apply getMyInfo_without_identity. right; right.
  exists ∅, {["sub" := js "1"]}. split; [done|by left].
Defined.

(** X6: behind the guard. When the guard has let a request through, the
    request it leaves carries the payload of the token, and [getMyInfo] run
    alone on that request answers with the record, mapped for the response,
    of the user whose id is the [id] of the payload; it fails with the
    NotFound error for the user when the table has no such id (a token that
    outlives its user), and with the NotFound error for the identity when
    the payload has no [id] or an empty one. *)
Theorem guard_then_getMyInfo jwt env request request' rows :
  sequential env →
  AuthGuard.canActivate jwt request = (Ok true, request') →
  ∃ payload,
    req_user request' = Some payload
    ∧ UserService.getMyInfo env (Some request') rows
      = match payload !! "id" with
        | Some (c :: i) =>
            match find (Repository.has "id" (c :: i)) rows with
            | Some user =>
                (Ok (ResponseUtil.success (UserMapper.toResponseDto user)
                       "Lấy thông tin cá nhân thành công"), rows)
            | None => (Throw (UserService.NotFound UserService.user_not_found), rows)
            end
        | _ => (Throw (UserService.NotFound identity_missing), rows)
        end.
Proof.
  intros Hseq. rewrite canActivate_by_headers.
  destruct (presented jwt (req_headers request)) as [payload|]; [|done].
  intros [= <-]. exists payload. split; [done|].
  rewrite getMyInfo_run. unfold identity_of. cbn.
  destruct (payload !! "id") as [[|c i]|]; [done| |done].
  rewrite (findUserById_seq env Hseq).
  by destruct (find (Repository.has "id" (c :: i)) rows).
Qed.

Lemma guard_then_getMyInfo_witness :
  ∃ payload,
    req_user (AuthGuard.canActivate Demo.jwt (Demo.request "Bearer good")).2 = Some payload
    ∧ UserService.getMyInfo Demo.env
        (Some (AuthGuard.canActivate Demo.jwt (Demo.request "Bearer good")).2)
        [Demo.alice; Demo.bob]
      = (Ok (ResponseUtil.success (UserMapper.toResponseDto Demo.alice)
               "Lấy thông tin cá nhân thành công"), [Demo.alice; Demo.bob]).
Proof.
  destruct (guard_then_getMyInfo Demo.jwt Demo.env (Demo.request "Bearer good")
              (AuthGuard.canActivate Demo.jwt (Demo.request "Bearer good")).2
              [Demo.alice; Demo.bob] demo_sequential eq_refl)
    as (payload & Huser & Hrun).
  exists payload. split; [exact Huser|]. rewrite Hrun.
  assert (payload = {["id" := js "1"]}) as -> by (by injection Huser).
  reflexivity.
Defined.

Section sequential_facts.
Context (env : Env) (Hseq : sequential env).

Lemma getMyInfo_seq request rows :
  (UserService.getMyInfo env request rows).2 = rows.
Proof.
  rewrite getMyInfo_run. destruct (identity_of request) as [[|c i]|]; [done| |done].
  rewrite (findUserById_seq env Hseq).
  by destruct (find (Repository.has "id" (c :: i)) rows).
Qed.

(** What a successful [save] leaves in the table. *)
Lemma save_ok entity rows saved rows' :
  Repository.save env entity rows = (Ok saved, rows') →
  saved ∈ rows'
  ∧ (∀ k, k ≠ "id" → saved !! k = entity !! k)
  ∧ existsb (Repository.clash entity) rows = false.
Proof.
  rewrite (save_seq env Hseq).
  destruct (existsb (Repository.clash entity) rows); [done|].
  destruct (entity !! "id") as [i|] eqn:Hid.
  - destruct (existsb (Repository.has "id" i) rows) eqn:Hex; intros [= <- <-].
    + split_and!; [|done..]. apply existsb_has_taken in Hex as (row & Hin & Hrow).
      apply list_elem_of_fmap. exists row. split; [|done].
      unfold Repository.has. by rewrite bool_decide_eq_true_2.
    + split_and!; [|done..]. apply elem_of_app. right. apply list_elem_of_here.
  - intros [= <- <-]. split_and!; [| |done].
    + apply elem_of_app. right. apply list_elem_of_here.
    + intros k Hk. by rewrite lookup_insert_ne.
Qed.

End sequential_facts.

(** X7: run alone, an operation of the user service that fails leaves the
    table exactly as it was, and the reading operations ([findOne],
    [findAll], [findByEmail], [findByUsername], [getMyInfo]) leave it as it
    was whether they fail or not. *)
Theorem failure_keeps_table env :
  sequential env →
  (∀ dto rows e rows', UserService.create env dto rows = (Throw e, rows') → rows' = rows)
  ∧ (∀ id updateData rows e rows',
       UserService.update env id updateData rows = (Throw e, rows') → rows' = rows)
  ∧ (∀ id rows e rows', UserService.remove env id rows = (Throw e, rows') → rows' = rows)
  ∧ (∀ id rows, (UserService.findOne env id rows).2 = rows)
  ∧ (∀ rows, (UserService.findAll env rows).2 = rows)
  ∧ (∀ v rows, (UserService.findByEmail env v rows).2 = rows)
  ∧ (∀ v rows, (UserService.findByUsername env v rows).2 = rows)
  ∧ (∀ request rows, (UserService.getMyInfo env request rows).2 = rows).
Proof.
  intros Hseq. split_and!.
  - intros dto rows e rows'. rewrite (create_seq env Hseq), (save_seq env Hseq).
    repeat case_match; intros; by simplify_eq.
  - intros id updateData rows e rows'.
    rewrite (update_seq env Hseq).
    destruct (find (Repository.has "id" id) rows) as [user|]; [|by intros [= _ <-]].
    rewrite (validateUpdateConstraints_seq env Hseq).
    destruct (changes "email" user updateData ≫= _); [by intros [= _ <-]|].
    destruct (changes "username" user updateData ≫= _); [by intros [= _ <-]|].
    rewrite (save_seq env Hseq). repeat case_match; intros; by simplify_eq.
  - intros id rows e rows'. rewrite (remove_seq env Hseq).
    by destruct (find (Repository.has "id" id) rows); intros [= _ <-].
  - intros id rows. unfold UserService.findOne. run.
    rewrite (findUserById_seq env Hseq).
    by destruct (find (Repository.has "id" id) rows).
  - intros rows. unfold UserService.findAll, Repository.find_all, Repository.query. run.
    cbn. apply Hseq.
  - intros v rows. unfold UserService.findByEmail. by rewrite (findOne_seq env Hseq).
  - intros v rows. unfold UserService.findByUsername. by rewrite (findOne_seq env Hseq).
  - intros request rows. apply (getMyInfo_seq env Hseq).
Qed.

Lemma failure_keeps_table_witness :
  (UserService.update Demo.env (js "2") {["username" := js "alice"]}
     [Demo.alice; Demo.bob]).2
  = [Demo.alice; Demo.bob].
Proof.
  exact (proj1 (proj2 (failure_keeps_table Demo.env demo_sequential))
           (js "2") {["username" := js "alice"]} [Demo.alice; Demo.bob]
           (UserService.Conflict UserService.username_taken) _ eq_refl).
Defined.

Lemma find_app_None {A} (P : A → bool) (l l' : list A) :
  find P l = None → find P (l ++ l') = find P l'.
Proof.
  induction l as [|a l IH]; [done|]. cbn. by destruct (P a).
Qed.

(** X8: what [create] has registered cannot be registered again. After a
    [create] that succeeded, and with nobody else writing, every create
    request with the same email fails with the Conflict error for the
    email, and every create request whose trimmed username is the same
    fails with a Conflict error; the table is not touched. In particular
    the same request sent twice is refused the second time. *)
Theorem create_twice env dto rows response rows' :
  sequential env →
  UserService.create env dto rows = (Ok response, rows') →
  (∀ dto2, email dto2 = email dto →
     UserService.create env dto2 rows'
     = (Throw (UserService.Conflict UserService.email_taken), rows'))
  ∧ (∀ dto2, JS.trim (username dto2) = JS.trim (username dto) →
     ∃ message,
       UserService.create env dto2 rows' = (Throw (UserService.Conflict message), rows')).
Proof.
  intros Hseq. rewrite (create_seq env Hseq).
  destruct (find (Repository.has "email" _) rows); [done|].
  destruct (find (Repository.has "username" _) rows); [done|].
  destruct (Repository.save env (new_user env dto) rows) as [[saved|e] rows2] eqn:Hsave;
    [|done].
  intros [= _ <-]. apply (save_ok env Hseq) in Hsave as (Hin & Hkeep & _).
  destruct (new_user_lookup env dto) as (He & Hu & _).
  assert (taken "email" (email dto) rows2) as Hemail.
  { exists saved. split; [done|]. by rewrite Hkeep. }
  assert (taken "username" (JS.trim (username dto)) rows2) as Huser.
  { exists saved. split; [done|]. by rewrite Hkeep. }
  split.
  - intros dto2 Heq. rewrite (create_seq env Hseq), Heq.
    by apply find_has_taken in Hemail as [row ->].
  - intros dto2 Heq. rewrite (create_seq env Hseq), Heq.
    apply find_has_taken in Huser as [row ->].
    destruct (find (Repository.has "email" _) rows2); by eexists.
Qed.

Lemma create_twice_witness :
  let dto := mkCreateUserDto (js "carol") (js "c@x.com") (js "secret") ∅ in
  UserService.create Demo.env dto (UserService.create Demo.env dto [Demo.alice]).2
  = (Throw (UserService.Conflict UserService.email_taken),
     (UserService.create Demo.env dto [Demo.alice]).2).
Proof.
  intros dto.
  refine (proj1 (create_twice Demo.env dto [Demo.alice]
                   (ResponseUtil.success
                      (UserMapper.toResponseDto
                         (<["id" := generate_id Demo.env [Demo.alice]]> (new_user Demo.env dto)))
                      "Tạo người dùng thành công")
                   _ demo_sequential _) dto eq_refl).
  reflexivity.
Defined.

(** X9: what [create] has registered can be looked up. After a [create]
    that succeeded on a request without primary key, the database having
    given the new row a key no row had, and with nobody else writing:
    [findOne] on that key answers with the very record [create] returned,
    and [findByEmail] on the email of the request and [findByUsername] on
    its trimmed username both find the new row. *)
Theorem create_then_lookup env dto rows response rows' :
  sequential env →
  profile dto !! "id" = None →
  ¬ taken "id" (generate_id env rows) rows →
  UserService.create env dto rows = (Ok response, rows') →
  ∃ stored,
    stored !! "id" = Some (generate_id env rows)
    ∧ data response = UserMapper.toResponseDto stored
    ∧ UserService.findOne env (generate_id env rows) rows'
      = (Ok (ResponseUtil.success (data response) "Lấy thông tin người dùng thành công"),
         rows')
    ∧ UserService.findByEmail env (email dto) rows' = (Ok (Some stored), rows')
    ∧ UserService.findByUsername env (JS.trim (username dto)) rows'
      = (Ok (Some stored), rows').
Proof.
  intros Hseq Hnoid Hfresh. rewrite (create_seq env Hseq).
  destruct (find (Repository.has "email" _) rows) eqn:Hemail; [done|].
  destruct (find (Repository.has "username" _) rows) eqn:Huser; [done|].
  rewrite (save_new_user env Hseq) by (by apply find_has_None || done).
  intros [= <- <-]. destruct (new_user_lookup env dto) as (He & Hu & _).
  set (stored := <["id" := generate_id env rows]> (new_user env dto)).
  assert (∀ k v, find (Repository.has k v) rows = None → stored !! k = Some v →
                 find (Repository.has k v) (rows ++ [stored]) = Some stored) as Hfind.
  { intros k v Hnone Hk. rewrite find_app_None by done. cbn.
    unfold Repository.has. by rewrite bool_decide_eq_true_2. }
  exists stored. split_and!.
  - apply lookup_insert_eq.
  - done.
  - unfold UserService.findOne. run. rewrite (findUserById_seq env Hseq).
    rewrite Hfind; [done|by apply find_has_None|apply lookup_insert_eq].
  - unfold UserService.findByEmail. rewrite (findOne_seq env Hseq).
    rewrite Hfind; [done..|]. unfold stored. by rewrite lookup_insert_ne.
  - unfold UserService.findByUsername. rewrite (findOne_seq env Hseq).
    rewrite Hfind; [done..|]. unfold stored. by rewrite lookup_insert_ne.
Qed.

Lemma create_then_lookup_witness :
  let dto := mkCreateUserDto (js " carol ") (js "c@x.com") (js "secret") ∅ in
  ∃ stored,
    UserService.findByUsername Demo.env (js "carol")
      (UserService.create Demo.env dto [Demo.alice]).2
    = (Ok (Some stored), (UserService.create Demo.env dto [Demo.alice]).2).
Proof.
  intros dto.
  destruct (create_then_lookup Demo.env dto [Demo.alice]
              (ResponseUtil.success
                 (UserMapper.toResponseDto
                    (<["id" := generate_id Demo.env [Demo.alice]]> (new_user Demo.env dto)))
                 "Tạo người dùng thành công")
              (UserService.create Demo.env dto [Demo.alice]).2
              demo_sequential eq_refl)
    as (stored & _ & _ & _ & _ & Hfind).
  - by apply find_has_None.
  - reflexivity.
  - by exists stored.
Defined.

(** X10: what [remove] has deleted is gone. After a [remove] that
    succeeded, and with nobody else writing, [remove], [findOne] and
    [update] on the same id fail with the NotFound error, the rows of the
    other ids are all still there, and on a consistent table the email and
    the username of the deleted user are free again. *)
Theorem remove_then_gone env id rows response rows' :
  sequential env →
  UserService.remove env id rows = (Ok response, rows') →
  UserService.remove env id rows'
  = (Throw (UserService.NotFound UserService.user_not_found), rows')
  ∧ UserService.findOne env id rows'
    = (Throw (UserService.NotFound UserService.user_not_found), rows')
  ∧ (∀ updateData,
       UserService.update env id updateData rows'
       = (Throw (UserService.NotFound UserService.user_not_found), rows'))
  ∧ (∀ row, row ∈ rows → row !! "id" ≠ Some id → row ∈ rows')
  ∧ (consistent rows →
     ∀ user k v, user ∈ rows → user !! "id" = Some id →
                 k = "email" ∨ k = "username" →
                 user !! k = Some v → ¬ taken k v rows').
Proof.
  intros Hseq. rewrite (remove_seq env Hseq).
  destruct (find (Repository.has "id" id) rows) as [user|] eqn:Hfind; [|done].
  intros [= _ <-].
  assert (∀ row, row ∈ filter (λ row, ¬ Repository.has "id" id row) rows
                 ↔ row ∈ rows ∧ row !! "id" ≠ Some id) as Hrows.
  { intros row. rewrite list_elem_of_filter. unfold Repository.has.
    rewrite bool_decide_spec. tauto. }
  assert (find (Repository.has "id" id)
            (filter (λ row, ¬ Repository.has "id" id row) rows) = None) as Hgone.
  { apply find_has_None. intros (row & Hin & Hid). by apply Hrows in Hin as [_ Hne]. }
  split_and!.
  - by rewrite (remove_seq env Hseq), Hgone.
  - unfold UserService.findOne. run. by rewrite (findUserById_seq env Hseq), Hgone.
  - intros updateData. by rewrite (update_seq env Hseq), Hgone.
  - intros row Hin Hne. by apply Hrows.
  - intros (Hids & Hemails & Hnames) user' k v Hin Hid Hk Hv (row & Hrow & Hrv).
    apply Hrows in Hrow as [Hrow Hne]. apply Hne.
    assert (row = user') as ->; [|done].
    destruct Hk as [-> | ->].
    + by apply (NoDup_omap_inj (.!! "email") rows row user' v).
    + by apply (NoDup_omap_inj (.!! "username") rows row user' v).
Qed.

Lemma remove_then_gone_witness :
  UserService.findOne Demo.env (js "1")
    (UserService.remove Demo.env (js "1") [Demo.alice; Demo.bob]).2
  = (Throw (UserService.NotFound UserService.user_not_found),
     (UserService.remove Demo.env (js "1") [Demo.alice; Demo.bob]).2).
Proof.
  refine (proj1 (proj2 (remove_then_gone Demo.env (js "1") [Demo.alice; Demo.bob]
                          (ResponseUtil.success (UserService.mkDeleted true)
                             "Xóa người dùng thành công")
                          _ demo_sequential _))).
  reflexivity.
Defined.

(** ** Updates that repeat, and fields stored as they come *)

Lemma existsb_clash_all entity (rows : list obj) row :
  existsb (Repository.clash entity) rows = false → row ∈ rows →
  Repository.clash entity row = false.
Proof.
  intros Hnone Hin. apply not_true_is_false. intros Hclash.
  apply list_elem_of_In in Hin.
  assert (existsb (Repository.clash entity) rows = true) as Hex
    by (apply existsb_exists; eauto).
  congruence.
Qed.

Lemma same_id_has entity i (row : obj) :
  entity !! "id" = Some i → Repository.same "id" entity row = Repository.has "id" i row.
Proof. intros Hid. unfold Repository.same. by rewrite Hid. Qed.

Lemma clash_replaced entity i (rows : list obj) :
  entity !! "id" = Some i →
  existsb (Repository.clash entity) rows = false →
  existsb (Repository.clash entity)
    ((λ row, if Repository.has "id" i row then entity else row) <$> rows) = false.
Proof.
  intros Hid Hnone. apply existsb_clash_false.
  intros row' (row & -> & Hin)%list_elem_of_fmap.
  destruct (Repository.has "id" i row) eqn:Hrow.
  - unfold Repository.clash. rewrite (same_id_has entity i) by done.
    unfold Repository.has at 1. by rewrite bool_decide_eq_true_2.
  - by apply (existsb_clash_all entity rows).
Qed.

Lemma replaced_twice entity i (rows : list obj) :
  entity !! "id" = Some i →
  (λ row, if Repository.has "id" i row then entity else row)
    <$> ((λ row, if Repository.has "id" i row then entity else row) <$> rows)
  = (λ row, if Repository.has "id" i row then entity else row) <$> rows.
Proof.
  intros Hid. rewrite <- list_fmap_compose. apply list_fmap_ext.
  intros n row _. cbn. destruct (Repository.has "id" i row) eqn:Hrow; [|by rewrite Hrow].
  unfold Repository.has at 1. by rewrite bool_decide_eq_true_2.
Qed.

Lemma assign_twice (user updateData : obj) :
  JS.assign (JS.assign user updateData) updateData = JS.assign user updateData.
Proof.
  unfold JS.assign. apply map_eq. intros k. rewrite !lookup_union.
  by destruct (updateData !! k), (user !! k).
Qed.

Lemma changes_after_assign k (user updateData : obj) :
  changes k (JS.assign user updateData) updateData = None.
Proof.
  unfold changes. destruct (updateData !! k) as [[|c v]|] eqn:Hk; [done| |done].
  rewrite bool_decide_eq_false_2; [done|]. intros Hne. apply Hne.
  unfold JS.assign. symmetry. by apply lookup_union_Some_l.
Qed.

(** X11: [update] is idempotent when it hashes nothing. With nobody else
    writing, an update without primary key and without a non-empty
    password that succeeded succeeds again when it is repeated, with the
    same answer, and leaves the table as the first one left it. *)
Theorem update_idempotent env id updateData rows response rows' :
  sequential env →
  updateData !! "id" = None →
  JS.truthy (updateData !! "password") = false →
  UserService.update env id updateData rows = (Ok response, rows') →
  UserService.update env id updateData rows' = (Ok response, rows').
Proof.
  intros Hseq Hnoid Hpw.
  assert (hashed_patch env updateData = updateData) as Hsame.
  { unfold hashed_patch. by destruct (updateData !! "password") as [[|c p]|]. }
  rewrite (update_seq env Hseq).
  destruct (find (Repository.has "id" id) rows) as [user|] eqn:Hfind; [|done].
  apply find_has_Some in Hfind as [Hin Hid].
  rewrite (validateUpdateConstraints_seq env Hseq), Hsame.
  destruct (changes "email" user updateData ≫= _); [done|].
  destruct (changes "username" user updateData ≫= _); [done|].
  set (entity := JS.assign user updateData).
  assert (entity !! "id" = Some id) as Heid.
  { unfold entity, JS.assign. by rewrite lookup_union_r. }
  rewrite (save_seq env Hseq).
  destruct (existsb (Repository.clash entity) rows) eqn:Hclash; [done|].
  rewrite Heid.
  replace (existsb (Repository.has "id" id) rows) with true
    by (symmetry; apply existsb_has_taken; by exists user).
  intros [= <- <-].
  rewrite (update_seq env Hseq).
  rewrite find_replaced by (done || by exists user).
  rewrite (validateUpdateConstraints_seq env Hseq), Hsame.
  assert (∀ k, changes k entity updateData = None) as Hunchanged
    by (intros k; apply changes_after_assign).
  assert (JS.assign entity updateData = entity) as Hagain by apply assign_twice.
  rewrite !Hunchanged. cbn. rewrite Hagain.
  rewrite (save_seq env Hseq), clash_replaced, Heid by done.
  replace (existsb (Repository.has "id" id) _) with true.
  - by rewrite replaced_twice.
  - symmetry. apply existsb_has_taken. exists entity. split; [|done].
    apply list_elem_of_fmap. exists user. split; [|done].
    unfold Repository.has. by rewrite bool_decide_eq_true_2.
Qed.

Lemma update_idempotent_witness :
  let updateData : obj := <["username" := js " bobby "]> {["city" := js "Hue"]} in
  let first := UserService.update Demo.env (js "2") updateData [Demo.alice; Demo.bob] in
  (∃ response, first.1 = Ok response)
  ∧ UserService.update Demo.env (js "2") updateData first.2 = first.
Proof.
  intros updateData first.
  assert (first = (Ok (ResponseUtil.success
                         (UserMapper.toResponseDto (JS.assign Demo.bob updateData))
                         "Cập nhật thông tin người dùng thành công"),
                   [Demo.alice; JS.assign Demo.bob updateData])) as Hfirst by reflexivity.
  split; [rewrite Hfirst; by eexists|].
  rewrite Hfirst at 2. cbn [snd].
  apply (update_idempotent Demo.env (js "2") updateData [Demo.alice; Demo.bob]);
    [exact demo_sequential|reflexivity|reflexivity|exact Hfirst].
Defined.

(** X12: [update] stores the fields it is given as they come. When an
    update without primary key succeeds, with nobody else writing, every
    field of the update data other than the password is, in the user's row,
    exactly the value supplied: unlike [create], [update] trims nothing. *)
Theorem update_stores_verbatim env id updateData rows user response rows' :
  sequential env →
  find (Repository.has "id" id) rows = Some user →
  updateData !! "id" = None →
  UserService.update env id updateData rows = (Ok response, rows') →
  ∃ user',
    find (Repository.has "id" id) rows' = Some user'
    ∧ ∀ k v, k ≠ "password" → updateData !! k = Some v → user' !! k = Some v.
Proof.
  intros Hseq Hfind Hnoid Hrun.
  destruct (update_outcome env Hseq id updateData rows user _ _ Hfind Hnoid Hrun)
    as (user' & Hfind' & _ & _ & Hok).
  exists user'. split; [done|]. intros k v Hk Hv.
  rewrite (Hok response eq_refl). unfold JS.assign. apply lookup_union_Some_l.
  unfold hashed_patch. destruct (updateData !! "password") as [[|c p]|]; [done| |done].
  by rewrite lookup_insert_ne.
Qed.

Lemma update_stores_verbatim_witness :
  let updateData : obj := {["username" := js " bobby "]} in
  ∃ user',
    find (Repository.has "id" (js "2"))
      (UserService.update Demo.env (js "2") updateData [Demo.alice; Demo.bob]).2
    = Some user'
    ∧ user' !! "username" = Some (js " bobby ").
Proof.
  intros updateData.
  destruct (update_stores_verbatim Demo.env (js "2") updateData [Demo.alice; Demo.bob]
              Demo.bob
              (ResponseUtil.success
                 (UserMapper.toResponseDto (JS.assign Demo.bob updateData))
                 "Cập nhật thông tin người dùng thành công")
              (UserService.update Demo.env (js "2") updateData [Demo.alice; Demo.bob]).2
              demo_sequential eq_refl eq_refl eq_refl)
    as (user' & Hfind & Hkeep).
  exists user'. split; [exact Hfind|]. by apply Hkeep.
Defined.

(** ** The table stays consistent *)

Lemma NoDup_omap_snoc {A B} (f : A → option B) (l : list A) x :
  NoDup (omap f l) →
  (∀ b, f x = Some b → b ∉ omap f l) →
  NoDup (omap f (l ++ [x])).
Proof.
  intros Hnd Hnew. rewrite omap_app. apply NoDup_app. split_and!; [done| |].
  - intros b Hb Hx. cbn in Hx. destruct (f x) as [b'|] eqn:Hfx; [|by apply elem_of_nil in Hx].
    apply list_elem_of_singleton in Hx as ->. by apply (Hnew b').
  - cbn. destruct (f x); [apply NoDup_singleton|apply NoDup_nil_2].
Qed.

Lemma NoDup_omap_filter {A B} (f : A → option B) (P : A → Prop)
    `{∀ x, Decision (P x)} (l : list A) :
  NoDup (omap f l) → NoDup (omap f (filter P l)).
Proof.
  induction l as [|a l IH]; [done|]. intros Hnd.
  assert (NoDup (omap f l)) as Hl.
  { cbn in Hnd. destruct (f a); [by apply NoDup_cons in Hnd as [_ ?]|done]. }
  rewrite filter_cons. destruct (decide (P a)); [|by apply IH].
  cbn in *. destruct (f a) as [b|]; [|by apply IH].
  apply NoDup_cons in Hnd as [Hb _]. apply NoDup_cons. split; [|by apply IH].
  intros (x & [_ Hx]%list_elem_of_filter & Hfx)%list_elem_of_omap.
  apply Hb. apply list_elem_of_omap. by exists x.
Qed.

Lemma omap_id_replaced entity i (rows : list obj) :
  entity !! "id" = Some i →
  omap (.!! "id") ((λ row, if Repository.has "id" i row then entity else row) <$> rows)
  = omap (.!! "id") rows.
Proof.
  intros Hid. induction rows as [|r rows IH]; [done|].
  cbn. rewrite IH. destruct (Repository.has "id" i r) eqn:Hr; [|done].
  apply bool_decide_eq_true in Hr. by rewrite Hid, Hr.
Qed.

Lemma NoDup_omap_replaced k entity i (rows : list obj) :
  NoDup (omap (.!! "id") rows) →
  NoDup (omap (.!! k) rows) →
  entity !! "id" = Some i →
  (∀ row, row ∈ rows → Repository.has "id" i row = false →
          Repository.same k entity row = false) →
  NoDup (omap (.!! k) ((λ row, if Repository.has "id" i row then entity else row) <$> rows)).
Proof.
  intros Hids Hks Hid. induction rows as [|r rows IH]; [done|]. intros Hfree.
  assert (NoDup (omap (.!! "id") rows) ∧ NoDup (omap (.!! k) rows)) as [Hids' Hks'].
  { cbn in Hids, Hks. split.
    - destruct (r !! "id"); [by apply NoDup_cons in Hids as [_ ?]|done].
    - destruct (r !! k); [by apply NoDup_cons in Hks as [_ ?]|done]. }
  assert (NoDup (omap (.!! k)
            ((λ row, if Repository.has "id" i row then entity else row) <$> rows))) as Htail.
  { apply IH; [done..|]. intros row Hrow. apply Hfree. by right. }
  rewrite fmap_cons. destruct (Repository.has "id" i r) eqn:Hr.
  - (* the row of the entity: no later row has its key *)
    apply bool_decide_eq_true in Hr.
    assert ((λ row, if Repository.has "id" i row then entity else row) <$> rows = rows)
      as Hrest.
    { rewrite <- (list_fmap_id rows) at 2. apply list_fmap_ext.
      intros n row Hrow%list_elem_of_lookup_2. cbn.
      destruct (Repository.has "id" i row) eqn:Hrow'; [|done].
      apply bool_decide_eq_true in Hrow'. cbn in Hids. rewrite Hr in Hids.
      apply NoDup_cons in Hids as [Hnotin _]. destruct Hnotin.
      apply list_elem_of_omap. by exists row. }
    rewrite Hrest. cbn. destruct (entity !! k) as [v|] eqn:Hv; [|done].
    apply NoDup_cons. split; [|done].
    intros (row & Hrow & Hrv)%list_elem_of_omap.
    assert (Repository.has "id" i row = false) as Hother.
    { apply bool_decide_eq_false. intros Hrow'. cbn in Hids. rewrite Hr in Hids.
      apply NoDup_cons in Hids as [Hnotin _]. destruct Hnotin.
      apply list_elem_of_omap. by exists row. }
    assert (Repository.same k entity row = true) as Hsame
      by (apply same_spec; by exists v).
    rewrite (Hfree row) in Hsame by (by right || done). done.
  - cbn. destruct (r !! k) as [v|] eqn:Hv; [|done].
    apply NoDup_cons. split; [|done].
    intros (row' & (row & -> & Hrow)%list_elem_of_fmap & Hrv)%list_elem_of_omap.
    destruct (Repository.has "id" i row) eqn:Hrow'.
    + assert (Repository.same k entity r = true) as Hsame
        by (apply same_spec; by exists v).
      rewrite (Hfree r) in Hsame by (by left || done). done.
    + cbn in Hks. rewrite Hv in Hks. apply NoDup_cons in Hks as [Hnotin _].
      apply Hnotin. apply list_elem_of_omap. by exists row.
Qed.

Lemma save_consistent env entity rows saved rows' :
  sequential env →
  consistent rows →
  (entity !! "id" = None → ¬ taken "id" (generate_id env rows) rows) →
  Repository.save env entity rows = (Ok saved, rows') →
  consistent rows'.
Proof.
  intros Hseq (Hids & Hemails & Hnames) Hfresh. rewrite (save_seq env Hseq).
  destruct (existsb (Repository.clash entity) rows) eqn:Hclash; [done|].
  assert (∀ k v, k = "email" ∨ k = "username" →
                 entity !! k = Some v →
                 (∀ row, row ∈ rows → Repository.same "id" entity row = false) →
                 v ∉ omap (lookup k : obj → option jstring) rows) as Hnew.
  { intros k v Hk Hv Hnoid (row & Hrow & Hrv)%list_elem_of_omap.
    pose proof (existsb_clash_all entity rows row Hclash Hrow) as Hno.
    unfold Repository.clash in Hno. rewrite (Hnoid row Hrow) in Hno. cbn in Hno.
    assert (Repository.same k entity row = true) as Hsame
      by (apply same_spec; by exists v).
    apply orb_false_iff in Hno as [? ?]. destruct Hk as [-> | ->]; congruence. }
  destruct (entity !! "id") as [i|] eqn:Hid.
  - destruct (existsb (Repository.has "id" i) rows) eqn:Hex; intros [= <- <-].
    + assert (∀ k, k = "email" ∨ k = "username" →
                ∀ row, row ∈ rows → Repository.has "id" i row = false →
                       Repository.same k entity row = false) as Hfree.
      { intros k Hk row Hrow Hother.
        pose proof (existsb_clash_all entity rows row Hclash Hrow) as Hno.
        unfold Repository.clash in Hno.
        rewrite (same_id_has entity i) in Hno by done. rewrite Hother in Hno. cbn in Hno.
        apply orb_false_iff in Hno as [? ?]. by destruct Hk as [-> | ->]. }
      split_and!.
      * by rewrite omap_id_replaced.
      * apply (NoDup_omap_replaced "email"); auto.
      * apply (NoDup_omap_replaced "username"); auto.
    + assert (∀ row, row ∈ rows → Repository.same "id" entity row = false) as Hnoid.
      { intros row Hrow. rewrite (same_id_has entity i) by done.
        apply not_true_is_false. intros Hrow'.
        assert (existsb (Repository.has "id" i) rows = true) as Hex'
          by (apply existsb_exists; exists row; split; [by apply list_elem_of_In|done]).
        congruence. }
      split_and!; apply NoDup_omap_snoc; try done.
      * intros b Hb (row & Hrow & Hrb)%list_elem_of_omap.
        assert (Repository.same "id" entity row = true) as Hsame
          by (apply same_spec; by exists b).
        by rewrite Hnoid in Hsame.
      * intros b Hb. apply (Hnew "email" b); auto.
      * intros b Hb. apply (Hnew "username" b); auto.
  - intros [= <- <-].
    assert (∀ row, Repository.same "id" entity row = false) as Hnoid.
    { intros row. unfold Repository.same. by rewrite Hid. }
    split_and!; apply NoDup_omap_snoc; try done.
    + intros b Hb (row & Hrow & Hrb)%list_elem_of_omap.
      rewrite lookup_insert_eq in Hb. injection Hb as <-.
      apply (Hfresh eq_refl). by exists row.
    + intros b Hb. rewrite lookup_insert_ne in Hb by done.
      apply (Hnew "email" b); auto.
    + intros b Hb. rewrite lookup_insert_ne in Hb by done.
      apply (Hnew "username" b); auto.
Qed.

(** X13: the operations of the user service keep the table consistent.
    With nobody else writing, from a table whose primary keys, emails and
    usernames are each without duplicate, [create] (on a request without
    primary key, the database giving the new row a key no row has),
    [update] (with update data without primary key) and [remove] lead,
    whether they succeed or fail, to a table that is again without
    duplicate. *)
Theorem operations_keep_consistent env rows :
  sequential env →
  consistent rows →
  (∀ dto r rows',
     profile dto !! "id" = None →
     ¬ taken "id" (generate_id env rows) rows →
     UserService.create env dto rows = (r, rows') → consistent rows')
  ∧ (∀ id updateData r rows',
       updateData !! "id" = None →
       UserService.update env id updateData rows = (r, rows') → consistent rows')
  ∧ (∀ id r rows', UserService.remove env id rows = (r, rows') → consistent rows').
Proof.
  intros Hseq Hcons. split_and!.
  - intros dto r rows' Hnoid Hfresh. rewrite (create_seq env Hseq).
    destruct (find (Repository.has "email" _) rows); [by intros [= _ <-]|].
    destruct (find (Repository.has "username" _) rows); [by intros [= _ <-]|].
    destruct (Repository.save env (new_user env dto) rows) as [[saved|e] rows2] eqn:Hsave.
    + intros [= _ <-].
      by apply (save_consistent env (new_user env dto) rows saved rows2 Hseq).
    + intros [= _ <-]. apply save_throws in Hsave as [_ ->]. by rewrite Hseq.
  - intros id updateData r rows' Hnoid. rewrite (update_seq env Hseq).
    destruct (find (Repository.has "id" id) rows) as [user|] eqn:Hfind; [|by intros [= _ <-]].
    apply find_has_Some in Hfind as [Hin Hid].
    rewrite (validateUpdateConstraints_seq env Hseq).
    destruct (changes "email" user updateData ≫= _); [by intros [= _ <-]|].
    destruct (changes "username" user updateData ≫= _); [by intros [= _ <-]|].
    destruct (Repository.save env _ rows) as [[saved|e] rows2] eqn:Hsave.
    + intros [= _ <-].
      apply (save_consistent env _ rows saved rows2 Hseq Hcons) in Hsave; [done|].
      intros Hnone. exfalso. revert Hnone. unfold JS.assign, hashed_patch.
      destruct (updateData !! "password") as [[|c p]|];
        rewrite lookup_union_r, Hid; try done; by rewrite lookup_insert_ne.
    + intros [= _ <-]. apply save_throws in Hsave as [_ ->]. by rewrite Hseq.
  - intros id r rows'. rewrite (remove_seq env Hseq).
    destruct (find (Repository.has "id" id) rows); intros [= _ <-]; [|done].
    destruct Hcons as (Hids & Hemails & Hnames).
    split_and!; by apply NoDup_omap_filter.
Qed.

Lemma operations_keep_consistent_witness :
  consistent
    (UserService.update Demo.env (js "2")
       (<["email" := js "bob@x.com"]> {["password" := js "pw"]})
       [Demo.alice; Demo.bob]).2.
Proof.
  assert (consistent [Demo.alice; Demo.bob]) as Hcons.
  { unfold consistent. split_and!; apply (bool_decide_unpack _); by vm_compute. }
  exact (proj1 (proj2 (operations_keep_consistent Demo.env [Demo.alice; Demo.bob]
                         demo_sequential Hcons))
           (js "2") (<["email" := js "bob@x.com"]> {["password" := js "pw"]}) _ _
           eq_refl (surjective_pairing _)).
Defined.

(** X14: the lookups by email and by username are exact. Run alone,
    [findByEmail] answers [null] exactly when no row of the table holds
    that email, and otherwise a row of the table that holds it; likewise
    [findByUsername] for the username. Neither throws. *)
Theorem lookup_exact env rows v :
  sequential env →
  (∃ found,
     UserService.findByEmail env v rows = (Ok found, rows)
     ∧ (found = None ↔ ¬ taken "email" v rows)
     ∧ (∀ row, found = Some row → row ∈ rows ∧ row !! "email" = Some v))
  ∧ (∃ found,
       UserService.findByUsername env v rows = (Ok found, rows)
       ∧ (found = None ↔ ¬ taken "username" v rows)
       ∧ (∀ row, found = Some row → row ∈ rows ∧ row !! "username" = Some v)).
Proof.
  intros Hseq.
  unfold UserService.findByEmail, UserService.findByUsername.
  rewrite !(findOne_seq env Hseq).
  split; eexists; (split_and!; [done|apply find_has_None|apply find_has_Some]).
Qed.

Lemma lookup_exact_witness :
  ∃ found,
    UserService.findByEmail Demo.env (js "b@x.com") [Demo.alice; Demo.bob]
    = (Ok found, [Demo.alice; Demo.bob])
    ∧ (∀ row, found = Some row → row ∈ [Demo.alice; Demo.bob] ∧ row !! "email" = Some (js "b@x.com")).
Proof.
  destruct (proj1 (lookup_exact Demo.env [Demo.alice; Demo.bob] (js "b@x.com")
                     demo_sequential))
    as (found & Hrun & _ & Hsome).
  by exists found.
Defined.

(** X15: the order of the checks of [update]. Run alone on a user of the
    table: when the update brings a new non-empty username that is in the
    table, the error is the Conflict error for the email if the update also
    brings a new non-empty email that is in the table, and the Conflict
    error for the username otherwise; in both cases nothing is hashed or
    written. *)
Theorem update_conflict_order env id updateData rows user u :
  sequential env →
  find (Repository.has "id" id) rows = Some user →
  updateData !! "username" = Some u → u ≠ [] → user !! "username" ≠ Some u →
  taken "username" u rows →
  let email_clash :=
    ∃ e, updateData !! "email" = Some e ∧ e ≠ []
         ∧ user !! "email" ≠ Some e ∧ taken "email" e rows in
  (email_clash →
     UserService.update env id updateData rows
     = (Throw (UserService.Conflict UserService.email_taken), rows))
  ∧ (¬ email_clash →
     UserService.update env id updateData rows
     = (Throw (UserService.Conflict UserService.username_taken), rows)).
Proof.
  intros Hseq Hfind Hu Hne Hother [row Hrow]%find_has_taken email_clash.
  rewrite (update_seq env Hseq), Hfind, (validateUpdateConstraints_seq env Hseq).
  rewrite (changes_taken "username" user updateData u) by done. cbn. rewrite Hrow.
  split.
  - intros (e & He & Hne' & Hother' & [row' Hrow']%find_has_taken).
    rewrite (changes_taken "email" user updateData e) by done. cbn. by rewrite Hrow'.
  - intros Hemail.
    destruct (changes "email" user updateData) as [e|] eqn:He; [|done]. cbn.
    destruct (find (Repository.has "email" e) rows) as [row'|] eqn:Hrow'; [|done].
    destruct Hemail. exists e. unfold changes in He.
    destruct (updateData !! "email") as [[|c e']|] eqn:He'; [done| |done].
    case_bool_decide as Hdiff; [|done]. injection He as <-.
    split_and!; [done|done|congruence|]. exists row'. by apply find_has_Some.
Qed.

Lemma update_conflict_order_witness :
  UserService.update Demo.env (js "2")
    (<["email" := js "a@x.com"]> {["username" := js "alice"]}) [Demo.alice; Demo.bob]
  = (Throw (UserService.Conflict UserService.email_taken), [Demo.alice; Demo.bob])
  ∧ UserService.update Demo.env (js "2")
      (<["email" := js "b@x.com"]> {["username" := js "alice"]}) [Demo.alice; Demo.bob]
    = (Throw (UserService.Conflict UserService.username_taken), [Demo.alice; Demo.bob]).
Proof.
  assert (taken "username" (js "alice") [Demo.alice; Demo.bob]) as Htaken.
  { exists Demo.alice. split; [apply list_elem_of_here|reflexivity]. }
  split.
  - refine (proj1 (update_conflict_order Demo.env (js "2")
                     (<["email" := js "a@x.com"]> {["username" := js "alice"]})
                     [Demo.alice; Demo.bob] Demo.bob (js "alice") demo_sequential
                     eq_refl eq_refl _ _ Htaken) _); [done|differ|].
    exists (js "a@x.com"). split_and!; [reflexivity|done|differ|].
    exists Demo.alice. split; [apply list_elem_of_here|reflexivity].
  - refine (proj2 (update_conflict_order Demo.env (js "2")
                     (<["email" := js "b@x.com"]> {["username" := js "alice"]})
                     [Demo.alice; Demo.bob] Demo.bob (js "alice") demo_sequential
                     eq_refl eq_refl _ _ Htaken) _); [done|differ|].
    intros (e & He & _ & Hown & _). apply Hown. rewrite <- He. reflexivity.
Defined.

(** ** Listing, and blank fields *)






